(** * The wmii layout of qtile ([libqtile/layout/wmii.py])

    A shallow embedding of the [Wmii] layout class: the column store, the
    client registry and the focus pointer, with the methods that mutate them,
    followed by the properties of the layout engine that were checked
    against it.

    The methods of the class mutate [self] and may raise; they are embedded
    in a state monad over the layout object whose outcomes are either a
    normal return or a Python exception, both carrying the object as the
    method left it.  The diagnostic writes to [/tmp/out] are left out. *)

From Stdlib Require Import ZArith.
From stdpp Require Import base tactics decidable option numbers list.

(** ** Python list primitives *)

Module Py.
Section ListOps.
Context {A : Type} `{EqDecision A}.

(** [x in l] *)
Definition contains (x : A) (l : list A) : bool := bool_decide (x ∈ l).

(** [l.index(x)]: position of the first element equal to [x];
    [None] stands for [ValueError]. *)
Fixpoint index (x : A) (l : list A) : option nat :=
  match l with
  | [] => None
  | y :: l' => if decide (y = x) then Some 0 else S <$> index x l'
  end.

(** [l.remove(x)]: drops the first element equal to [x];
    [None] stands for [ValueError]. *)
Fixpoint remove (x : A) (l : list A) : option (list A) :=
  match l with
  | [] => None
  | y :: l' => if decide (y = x) then Some l' else (y ::.) <$> remove x l'
  end.

(** [l[i]], where a negative [i] counts from the end;
    [None] stands for [IndexError]. *)
Definition getitem (l : list A) (i : Z) : option A :=
  if decide (0 ≤ i)%Z then l !! Z.to_nat i
  else if decide (- Z.of_nat (length l) ≤ i)%Z
       then l !! Z.to_nat (Z.of_nat (length l) + i)
       else None.

(** [l[i] = x]; [None] stands for [IndexError]. *)
Definition setitem (l : list A) (i : Z) (x : A) : option (list A) :=
  if decide (0 ≤ i)%Z then
    if decide (Z.to_nat i < length l)
    then Some (<[Z.to_nat i := x]> l) else None
  else if decide (- Z.of_nat (length l) ≤ i)%Z
       then Some (<[Z.to_nat (Z.of_nat (length l) + i) := x]> l)
       else None.
End ListOps.
End Py.

(** ** Data model *)

(** Clients are window objects, compared by identity. *)
Definition Client := nat.

(** The ['mode'] entry of a column: ['split'] or ['stack']. *)
Inductive Mode := split | stack.

#[global] Instance Mode_eq_dec : EqDecision Mode.
Proof. solve_decision. Defined.

(** A column is a dict with the keys ['active'], ['width'], ['mode'] and
    ['rows'].  The dict built by [add_column] has no ['active'] key until
    [focus] writes one, hence the option. *)
Record Column := mkColumn {
  active : option nat;
  width : Z;
  mode : Mode;
  rows : list Client
}.

#[global] Instance Column_eq_dec : EqDecision Column.
Proof. solve_decision. Defined.

Definition set_active (a : option nat) (c : Column) : Column :=
  mkColumn a (width c) (mode c) (rows c).
Definition set_width (w : Z) (c : Column) : Column :=
  mkColumn (active c) w (mode c) (rows c).
Definition set_mode (m : Mode) (c : Column) : Column :=
  mkColumn (active c) (width c) m (rows c).
Definition set_rows (r : list Client) (c : Column) : Column :=
  mkColumn (active c) (width c) (mode c) r.

(** The layout object.  Every column dict occurs once in [self.columns], so
    a dict is identified with its position in the list; [group_focused] is
    the host's record of the calls made to its focus delegate. *)
Record Wmii := mkWmii {
  current_window : option Client;
  clients : list Client;
  columns : list Column;
  group_focused : list Client
}.

Definition set_current_window (w : option Client) (s : Wmii) : Wmii :=
  mkWmii w (clients s) (columns s) (group_focused s).
Definition set_clients (l : list Client) (s : Wmii) : Wmii :=
  mkWmii (current_window s) l (columns s) (group_focused s).
Definition set_columns (l : list Column) (s : Wmii) : Wmii :=
  mkWmii (current_window s) (clients s) l (group_focused s).
Definition set_group_focused (l : list Client) (s : Wmii) : Wmii :=
  mkWmii (current_window s) (clients s) (columns s) l.

(** [Wmii.__init__] and [Wmii.clone]: one empty column of width 100. *)
Definition empty_column : Column := mkColumn (Some 0) 100%Z split [].
Definition init : Wmii := mkWmii None [] [empty_column] [].

(** ** Methods as state transformers that may raise *)

Inductive exn := IndexError | ValueError | ZeroDivisionError | TypeError.

Inductive outcome (A : Type) :=
| Ok (a : A) (s : Wmii)
| Raise (e : exn) (s : Wmii).
Arguments Ok {A} a s.
Arguments Raise {A} e s.

Definition state_of {A} (o : outcome A) : Wmii :=
  match o with Ok _ s => s | Raise _ s => s end.

Definition M (A : Type) : Type := Wmii → outcome A.

Definition ret {A} (a : A) : M A := λ s, Ok a s.
Definition bind {A B} (m : M A) (k : A → M B) : M B :=
  λ s, match m s with Ok a s' => k a s' | Raise e s' => Raise e s' end.
Definition raise {A} (e : exn) : M A := λ s, Raise e s.
Definition get : M Wmii := λ s, Ok s s.
Definition modify (f : Wmii → Wmii) : M unit := λ s, Ok tt (f s).

(** A primitive that fails with [e] when it has no result. *)
Definition try {A} (e : exn) (o : option A) : M A :=
  match o with Some a => ret a | None => raise e end.

Declare Scope py_scope.
Delimit Scope py_scope with py.
Notation "x <- m ;; k" := (bind m (λ x, k))
  (at level 100, m at next level, right associativity) : py_scope.
Notation "m ;; k" := (bind m (λ _, k))
  (at level 100, right associativity) : py_scope.
Local Open Scope py_scope.

(** [c[...] = ...] on the column dict at position [i] of [self.columns]. *)
Definition alter_column (i : nat) (f : Column → Column) : M unit :=
  modify (λ s, set_columns (alter f i (columns s)) s).

(** [int(100 / n)] under true division. *)
Definition share (n : nat) : M Z :=
  if decide (n = 0) then raise ZeroDivisionError
  else ret (100 / Z.of_nat n)%Z.

(** [for c in self.columns: c['width'] = newwidth] *)
Definition set_widths (newwidth : Z) : M unit :=
  modify (λ s, set_columns (set_width newwidth <$> columns s) s).

(** The first column whose rows hold [client], with its position: the
    column picked by [for c in self.columns: if client in c['rows']]. *)
Definition find_column (client : Client) (cols : list Column)
  : option (nat * Column) :=
  list_find (λ c, client ∈ rows c) cols.

(** [Wmii.focus] *)
Definition focus_column (client : Client) (c : Column) : Column :=
  match Py.index client (rows c) with
  | Some i => set_active (Some i) c
  | None => c
  end.

Definition focus (client : Client) : M unit :=
  modify (λ s, set_columns (focus_column client <$> columns s)
                 (set_current_window (Some client) s)).

(** Modelled from the spec: the host's focus delegate [group.focus], which
    is not part of this module.  The host notes the client in its own focus
    bookkeeping, and the engine's internal [focus] update also runs. *)
Definition group_focus (client : Client) : M unit :=
  modify (λ s, set_group_focused (group_focused s ++ [client]) s) ;;
  focus client.

(** [Wmii.current_column] *)
Definition current_column (s : Wmii) : option (nat * Column) :=
  match current_window s with
  | None => None
  | Some w => find_column w (columns s)
  end.

(** [Wmii.add_column] *)
Definition add_column (prepend : bool) (win : Client) : M unit :=
  s <- get ;;
  let newwidth := (100 / (Z.of_nat (length (columns s)) + 1))%Z in
  set_widths newwidth ;;
  let c := mkColumn None newwidth split [win] in
  if prepend
  then modify (λ s, set_columns (c :: columns s) s)
  else modify (λ s, set_columns (columns s ++ [c]) s).

(** [Wmii.add] *)
Definition add (client : Client) : M unit :=
  modify (λ s, set_clients (clients s ++ [client]) s) ;;
  s <- get ;;
  c <- match current_column s with
       | Some (i, _) => ret i
       | None => (try IndexError (columns s !! 0) ;; ret 0)
       end ;;
  alter_column c (λ c, set_rows (rows c ++ [client]) c) ;;
  focus client.

(** [Wmii.remove] *)
Definition remove (client : Client) : M (option Client) :=
  s <- get ;;
  if negb (Py.contains client (clients s)) then ret None else
  l <- try ValueError (Py.remove client (clients s)) ;;
  modify (set_clients l) ;;
  if negb (bool_decide (current_window s = Some client)) then ret None else
  modify (set_current_window None) ;;
  match find_column client (columns s) with
  | None => ret None
  | Some (i, c) =>
    ridx <- try ValueError (Py.index client (rows c)) ;;
    cidx <- try ValueError (Py.index c (columns s)) ;;
    r <- try ValueError (Py.remove client (rows c)) ;;
    alter_column i (set_rows r) ;;
    let c := set_rows r c in
    if negb (bool_decide (length (rows c) = 0)) then
      let ridx := if bool_decide (0 < ridx) then (ridx - 1) else ridx in
      newclient <- try IndexError (rows c !! ridx) ;;
      focus newclient ;;
      ret (Some newclient)
    else
      (* column is now empty, remove it and select the previous one *)
      s <- get ;;
      cols <- try ValueError (Py.remove c (columns s)) ;;
      modify (set_columns cols) ;;
      newwidth <- share (length cols) ;;
      set_widths newwidth ;;
      s <- get ;;
      if bool_decide (length (columns s) = 1) then ret None else
      let cidx := if bool_decide (0 < cidx) then (cidx - 1) else cidx in
      c <- try IndexError (columns s !! cidx) ;;
      newclient <- try IndexError (rows c !! 0) ;;
      modify (set_current_window (Some newclient)) ;;
      group_focus newclient ;;
      ret (Some newclient)
  end.


(** [swap(array, a, b)]; [None] stands for the [IndexError] of the first
    out-of-range access, which comes before any write. *)
Definition swap {A} (array : list A) (a b : Z) : option (list A) :=
  tmp ← Py.getitem array b;
  x ← Py.getitem array a;
  array ← Py.setitem array b x;
  Py.setitem array a tmp.

(** [c['rows'].index(self.current_window)] *)
Definition focused_row (s : Wmii) (c : Column) : option nat :=
  w ← current_window s; Py.index w (rows c).

(** [Wmii.cmd_toggle_split] *)
Definition cmd_toggle_split : M unit :=
  s <- get ;;
  match current_column s with
  | None => raise TypeError
  | Some (i, c) =>
    if bool_decide (mode c = split)
    then alter_column i (set_mode stack)
    else alter_column i (set_mode split)
  end.

(** [self.columns.index(c)] for the result [c] of [current_column()] *)
Definition current_column_index (s : Wmii) : option nat :=
  '(_, c) ← current_column s; Py.index c (columns s).

(** [Wmii.cmd_left] *)
Definition cmd_left : M unit :=
  s <- get ;;
  cidx <- try ValueError (current_column_index s) ;;
  if bool_decide (cidx = 0) then ret tt else
  let cidx := cidx - 1 in
  c <- try IndexError (columns s !! cidx) ;;
  client <- try IndexError (rows c !! 0) ;;
  group_focus client.

(** [Wmii.cmd_right] *)
Definition cmd_right : M unit :=
  s <- get ;;
  cidx <- try ValueError (current_column_index s) ;;
  if bool_decide (Z.of_nat cidx = Z.of_nat (length (columns s)) - 1)%Z
  then ret tt else
  let cidx := cidx + 1 in
  c <- try IndexError (columns s !! cidx) ;;
  client <- try IndexError (rows c !! 0) ;;
  group_focus client.

(** [Wmii.cmd_up] *)
Definition cmd_up : M unit :=
  s <- get ;;
  match current_column s with
  | None => ret tt
  | Some (_, c) =>
    ridx <- try ValueError (focused_row s c) ;;
    if bool_decide (mode c = split) && bool_decide (ridx = 0) then ret tt else
    let ridx := (Z.of_nat ridx - 1)%Z in
    client <- try IndexError (Py.getitem (rows c) ridx) ;;
    group_focus client
  end.

(** [Wmii.cmd_down] *)
Definition cmd_down : M unit :=
  s <- get ;;
  match current_column s with
  | None => ret tt
  | Some (_, c) =>
    ridx <- try ValueError (focused_row s c) ;;
    if bool_decide (mode c = split)
       && bool_decide (Z.of_nat ridx = Z.of_nat (length (rows c)) - 1)%Z
    then ret tt else
    let ridx := (Z.of_nat ridx + 1)%Z in
    client <- try IndexError (Py.getitem (rows c) ridx) ;;
    group_focus client
  end.

(** [Wmii.cmd_shuffle_down].  The loop looks for [self.current_window] in
    the rows of each column; rows hold clients only, so with no focused
    window no column is found. *)
Definition cmd_shuffle_down : M unit :=
  s <- get ;;
  match current_column s with
  | None => ret tt
  | Some (i, c) =>
    let r := rows c in
    ridx <- try ValueError (focused_row s c) ;;
    if bool_decide (ridx < length r) then
      r <- try IndexError (swap r (Z.of_nat ridx) (Z.of_nat ridx + 1)) ;;
      alter_column i (set_rows r) ;;
      client <- try IndexError (Py.getitem r (Z.of_nat ridx + 1)) ;;
      focus client ;;
      group_focus client
    else ret tt
  end.

(** [Wmii.cmd_shuffle_up] *)
Definition cmd_shuffle_up : M unit :=
  s <- get ;;
  match current_column s with
  | None => ret tt
  | Some (i, c) =>
    let r := rows c in
    ridx <- try ValueError (focused_row s c) ;;
    if bool_decide (0 < ridx) then
      r <- try IndexError (swap r (Z.of_nat ridx - 1) (Z.of_nat ridx)) ;;
      alter_column i (set_rows r) ;;
      client <- try IndexError (Py.getitem r (Z.of_nat ridx - 1)) ;;
      focus client ;;
      group_focus client
    else ret tt
  end.

(** The current value of the column dict at position [p].  The positions
    read below are those of a dict known to be in [self.columns]. *)
Definition column_at (p : nat) : M Column :=
  s <- get ;; try IndexError (columns s !! p).

(** [self.columns.remove(c)]: dicts are compared by value. *)
Definition remove_column (c : Column) : M unit :=
  s <- get ;;
  cols <- try ValueError (Py.remove c (columns s)) ;;
  modify (set_columns cols).

(** The tail shared by both horizontal shuffles:
    [if len(c['rows']) == 0: ...] followed by [self.group.focus(cur)]. *)
Definition drop_if_empty (c : Column) : M unit :=
  if bool_decide (length (rows c) = 0) then
    remove_column c ;;
    s <- get ;;
    newwidth <- share (length (columns s)) ;;
    set_widths newwidth
  else ret tt.

(** [Wmii.cmd_shuffle_left] *)
Definition cmd_shuffle_left : M unit :=
  s <- get ;;
  match current_window s with
  | None => ret tt
  | Some cur =>
    match find_column cur (columns s) with
    | None => ret tt
    | Some (i, c) =>
      cidx <- try ValueError (Py.index c (columns s)) ;;
      if bool_decide (cidx = 0) then
        if bool_decide (length (rows c) = 1) then ret tt else
        r <- try ValueError (Py.remove cur (rows c)) ;;
        alter_column i (set_rows r) ;;
        add_column true cur ;;
        c <- column_at (S i) ;;
        (if bool_decide (length (rows c) = 0) then remove_column c
         else ret tt) ;;
        drop_if_empty c ;;
        group_focus cur
      else
        r <- try ValueError (Py.remove cur (rows c)) ;;
        alter_column i (set_rows r) ;;
        s <- get ;;
        try IndexError (columns s !! (cidx - 1)) ;;
        alter_column (cidx - 1) (λ c, set_rows (rows c ++ [cur]) c) ;;
        c <- column_at i ;;
        drop_if_empty c ;;
        group_focus cur
    end
  end.

(** [Wmii.cmd_shuffle_right] *)
Definition cmd_shuffle_right : M unit :=
  s <- get ;;
  match current_window s with
  | None => ret tt
  | Some cur =>
    match find_column cur (columns s) with
    | None => ret tt
    | Some (i, c) =>
      cidx <- try ValueError (Py.index c (columns s)) ;;
      if bool_decide (Z.of_nat cidx = Z.of_nat (length (columns s)) - 1)%Z then
        if bool_decide (length (rows c) = 1) then ret tt else
        r <- try ValueError (Py.remove cur (rows c)) ;;
        alter_column i (set_rows r) ;;
        add_column false cur ;;
        c <- column_at i ;;
        (if bool_decide (length (rows c) = 0) then remove_column c
         else ret tt) ;;
        drop_if_empty c ;;
        group_focus cur
      else
        r <- try ValueError (Py.remove cur (rows c)) ;;
        alter_column i (set_rows r) ;;
        s <- get ;;
        try IndexError (columns s !! (cidx + 1)) ;;
        alter_column (cidx + 1) (λ c, set_rows (rows c ++ [cur]) c) ;;
        c <- column_at i ;;
        drop_if_empty c ;;
        group_focus cur
    end
  end.

(** ** The command surface

    The calls the host makes on a layout, and their effect in sequence.  A
    call that raises ends the run with the layout as the exception left it. *)

Inductive op :=
| Add (client : Client)
| Remove (client : Client)
| Focus (client : Client)
| ToggleSplit
| CmdLeft | CmdRight | CmdUp | CmdDown
| ShuffleLeft | ShuffleRight | ShuffleUp | ShuffleDown.

Definition run_op (o : op) : M unit :=
  match o with
  | Add client => add client
  | Remove client => remove client ;; ret tt
  | Focus client => focus client
  | ToggleSplit => cmd_toggle_split
  | CmdLeft => cmd_left
  | CmdRight => cmd_right
  | CmdUp => cmd_up
  | CmdDown => cmd_down
  | ShuffleLeft => cmd_shuffle_left
  | ShuffleRight => cmd_shuffle_right
  | ShuffleUp => cmd_shuffle_up
  | ShuffleDown => cmd_shuffle_down
  end.

Fixpoint run (ops : list op) : M unit :=
  match ops with
  | [] => ret tt
  | o :: ops' => run_op o ;; run ops'
  end.

(** The layouts the host can bring about: the empty layout and whatever a
    call leaves behind, whether it returned or raised. *)
Inductive reachable : Wmii → Prop :=
| reachable_init : reachable init
| reachable_step o s : reachable s → reachable (state_of (run_op o s)).

(** No column is without rows. *)
Definition no_empty_column (cols : list Column) : Prop :=
  Forall (λ c, rows c ≠ []) cols.

(** With two columns or more, no column is without rows. *)
Definition columns_ok (cols : list Column) : Prop :=
  2 ≤ length cols → no_empty_column cols.

(** No column other than the one at position [i] is without rows. *)
Definition nonempty_except (i : nat) (cols : list Column) : Prop :=
  ∀ j d, cols !! j = Some d → j ≠ i → rows d ≠ [].

(** A method keeps [columns_ok], whether it returns or raises. *)
Definition preserves {A} (m : M A) : Prop :=
  ∀ s, columns_ok (columns s) → columns_ok (columns (state_of (m s))).

(** ** Sample layouts

    Layouts obtained from the empty one by the calls listed, on which the
    general statements below are instantiated. *)

(** One column [[1]], focus on [1]. *)
Definition one_client : Wmii := state_of (run [Add 1] init).

(** One column [[1; 2]], focus on [2]. *)
Definition two_clients : Wmii := state_of (run [Add 1; Add 2] init).

(** One column [[1; 2; 3]], focus on [3]; client [2] is not focused. *)
Definition three_clients : Wmii := state_of (run [Add 1; Add 2; Add 3] init).

(** One stacked column [[1; 2]], focus on [2]. *)
Definition stacked_pair : Wmii :=
  state_of (run [Add 1; Add 2; ToggleSplit] init).

(** One stacked column [[1; 2; 3]], focus on [1]. *)
Definition stacked_top : Wmii :=
  state_of (run [Add 1; Add 2; Add 3; ToggleSplit; Focus 1] init).

(** Columns [[1]], [[2]] and [[3]], focus on [3]. *)
Definition three_columns : Wmii :=
  state_of (run [Add 1; Add 2; ShuffleRight; Add 3; ShuffleRight] init).

(** One column [[1; 2]] whose focused client [2] has left the registry:
    it was removed while [3] had the focus, and got the focus back when
    [3] was removed in turn. *)
Definition stale_focus : Wmii :=
  state_of (run [Add 1; Add 2; Add 3; Remove 2; Remove 3] init).

(** ** Notions for the further properties *)

(** The clients held by the columns, column after column. *)
Definition shown (cols : list Column) : list Client := concat (rows <$> cols).

(** Every column has the width [int(100 / len(self.columns))]. *)
Definition widths_ok (cols : list Column) : Prop :=
  Forall (λ c, width c = (100 / Z.of_nat (length cols))%Z) cols.

(** A method relates the layout it starts from to the one it leaves, whether
    it returns or raises. *)
Definition keeps {A} (R : Wmii → Wmii → Prop) (m : M A) : Prop :=
  ∀ s, R s (state_of (m s)).

(** Nothing but the focus, the ['active'] entries and the host's record
    differs. *)
Definition same_structure (s s' : Wmii) : Prop :=
  rows <$> columns s' = rows <$> columns s ∧
  width <$> columns s' = width <$> columns s ∧
  mode <$> columns s' = mode <$> columns s ∧
  clients s' = clients s.

(** Every column has the width it had. *)
Definition same_widths (s s' : Wmii) : Prop :=
  width <$> columns s' = width <$> columns s.

(** The columns hold the same clients, up to their order and their column,
    and the registry and the focused window are the same. *)
Definition conserves (s s' : Wmii) : Prop :=
  shown (columns s') ≡ₚ shown (columns s) ∧
  clients s' = clients s ∧
  current_window s' = current_window s.

(** The columns hold the same clients, up to their order and their column,
    and the registry is the same. *)
Definition same_clients (s s' : Wmii) : Prop :=
  shown (columns s') ≡ₚ shown (columns s) ∧ clients s' = clients s.

(** Every registered client is in a column, as often as it is registered,
    unless no column is left. *)
Definition registered_shown (s : Wmii) : Prop :=
  columns s = [] ∨ clients s ⊆+ shown (columns s).

(** A layout without columns is left without columns. *)
Definition stays_empty (s s' : Wmii) : Prop :=
  columns s = [] → columns s' = [].

(** The position that the Python index [i] stands for in a list of [n]
    elements: a negative index counts from the end. *)
Definition position (n : nat) (i : Z) : nat :=
  Z.to_nat (if decide (0 ≤ i)%Z then i else (Z.of_nat n + i)%Z).

(** The mode [cmd_toggle_split] writes, given the mode it reads. *)
Definition toggle (m : Mode) : Mode :=
  match m with split => stack | stack => split end.

(** ** The paths through [remove] and the horizontal shuffles

    Each constructor is one path through the method body, with the layout it
    ends in; the paths that cannot be taken (a [ValueError] from [index] or
    [remove] on an element just found) are absent. *)

Inductive remove_path (s : Wmii) (client : Client)
  : outcome (option Client) → Prop :=
| via_remove_unregistered :
    client ∉ clients s →
    remove_path s client (Ok None s)
| via_remove_unfocused l :
    Py.remove client (clients s) = Some l →
    current_window s ≠ Some client →
    remove_path s client (Ok None (set_clients l s))
| via_remove_unplaced l :
    Py.remove client (clients s) = Some l →
    current_window s = Some client →
    find_column client (columns s) = None →
    remove_path s client
      (Ok None (mkWmii None l (columns s) (group_focused s)))
| via_remove_row l i c ridx r newclient :
    Py.remove client (clients s) = Some l →
    current_window s = Some client →
    find_column client (columns s) = Some (i, c) →
    Py.index client (rows c) = Some ridx →
    Py.remove client (rows c) = Some r →
    r !! (ridx - 1) = Some newclient →
    remove_path s client
      (Ok (Some newclient)
         (mkWmii (Some newclient) l
            (focus_column newclient <$> <[i := set_rows r c]> (columns s))
            (group_focused s)))
| via_remove_only_column l c :
    Py.remove client (clients s) = Some l →
    current_window s = Some client →
    columns s = [c] →
    rows c = [client] →
    remove_path s client
      (Raise ZeroDivisionError (mkWmii None l [] (group_focused s)))
| via_remove_column_one l i c cols :
    Py.remove client (clients s) = Some l →
    current_window s = Some client →
    find_column client (columns s) = Some (i, c) →
    rows c = [client] →
    Py.remove (set_rows [] c) (<[i := set_rows [] c]> (columns s)) = Some cols →
    length cols = 1 →
    remove_path s client
      (Ok None (mkWmii None l (set_width 100%Z <$> cols) (group_focused s)))
| via_remove_column_empty_neighbour l i c cols d :
    Py.remove client (clients s) = Some l →
    current_window s = Some client →
    find_column client (columns s) = Some (i, c) →
    rows c = [client] →
    Py.remove (set_rows [] c) (<[i := set_rows [] c]> (columns s)) = Some cols →
    2 ≤ length cols →
    cols !! (i - 1) = Some d →
    rows d = [] →
    remove_path s client
      (Raise IndexError
         (mkWmii None l
            (set_width (100 / Z.of_nat (length cols))%Z <$> cols)
            (group_focused s)))
| via_remove_column_neighbour l i c cols d newclient :
    Py.remove client (clients s) = Some l →
    current_window s = Some client →
    find_column client (columns s) = Some (i, c) →
    rows c = [client] →
    Py.remove (set_rows [] c) (<[i := set_rows [] c]> (columns s)) = Some cols →
    2 ≤ length cols →
    cols !! (i - 1) = Some d →
    rows d !! 0 = Some newclient →
    remove_path s client
      (Ok (Some newclient)
         (mkWmii (Some newclient) l
            (focus_column newclient
               <$> (set_width (100 / Z.of_nat (length cols))%Z <$> cols))
            (group_focused s ++ [newclient]))).

(** The ways through [cmd_shuffle_left]: nothing to move; the client alone
    in the first column; a new first column for it; a move into the column
    on the left, the column it leaves being kept or, once empty, dropped. *)
Inductive shuffle_left_path (s : Wmii) : outcome unit → Prop :=
| via_shuffle_left_idle :
    current_column s = None →
    shuffle_left_path s (Ok tt s)
| via_shuffle_left_alone cur c :
    current_window s = Some cur →
    find_column cur (columns s) = Some (0, c) →
    length (rows c) = 1 →
    shuffle_left_path s (Ok tt s)
| via_shuffle_left_new_column cur c r :
    current_window s = Some cur →
    find_column cur (columns s) = Some (0, c) →
    Py.remove cur (rows c) = Some r →
    r ≠ [] →
    let newwidth := (100 / (Z.of_nat (length (columns s)) + 1))%Z in
    shuffle_left_path s
      (group_focus cur
         (set_columns
            (mkColumn None newwidth split [cur]
               :: (set_width newwidth <$> <[0 := set_rows r c]> (columns s)))
            s))
| via_shuffle_left_move cur i c r d :
    current_window s = Some cur →
    find_column cur (columns s) = Some (S i, c) →
    Py.remove cur (rows c) = Some r →
    r ≠ [] →
    columns s !! i = Some d →
    shuffle_left_path s
      (group_focus cur
         (set_columns
            (<[i := set_rows (rows d ++ [cur]) d]>
               (<[S i := set_rows r c]> (columns s)))
            s))
| via_shuffle_left_move_drop cur i c d cols :
    current_window s = Some cur →
    find_column cur (columns s) = Some (S i, c) →
    Py.remove cur (rows c) = Some [] →
    columns s !! i = Some d →
    Py.remove (set_rows [] c)
      (<[i := set_rows (rows d ++ [cur]) d]>
         (<[S i := set_rows [] c]> (columns s))) = Some cols →
    cols ≠ [] →
    shuffle_left_path s
      (group_focus cur
         (set_columns
            (set_width (100 / Z.of_nat (length cols))%Z <$> cols) s)).

(** The ways through [cmd_shuffle_right], likewise, with the last column
    and the column on the right. *)
Inductive shuffle_right_path (s : Wmii) : outcome unit → Prop :=
| via_shuffle_right_idle :
    current_column s = None →
    shuffle_right_path s (Ok tt s)
| via_shuffle_right_alone cur i c :
    current_window s = Some cur →
    find_column cur (columns s) = Some (i, c) →
    S i = length (columns s) →
    length (rows c) = 1 →
    shuffle_right_path s (Ok tt s)
| via_shuffle_right_new_column cur i c r :
    current_window s = Some cur →
    find_column cur (columns s) = Some (i, c) →
    S i = length (columns s) →
    Py.remove cur (rows c) = Some r →
    r ≠ [] →
    let newwidth := (100 / (Z.of_nat (length (columns s)) + 1))%Z in
    shuffle_right_path s
      (group_focus cur
         (set_columns
            ((set_width newwidth <$> <[i := set_rows r c]> (columns s))
               ++ [mkColumn None newwidth split [cur]])
            s))
| via_shuffle_right_move cur i c r d :
    current_window s = Some cur →
    find_column cur (columns s) = Some (i, c) →
    Py.remove cur (rows c) = Some r →
    r ≠ [] →
    columns s !! S i = Some d →
    shuffle_right_path s
      (group_focus cur
         (set_columns
            (<[S i := set_rows (rows d ++ [cur]) d]>
               (<[i := set_rows r c]> (columns s)))
            s))
| via_shuffle_right_move_drop cur i c d cols :
    current_window s = Some cur →
    find_column cur (columns s) = Some (i, c) →
    Py.remove cur (rows c) = Some [] →
    columns s !! S i = Some d →
    Py.remove (set_rows [] c)
      (<[S i := set_rows (rows d ++ [cur]) d]>
         (<[i := set_rows [] c]> (columns s))) = Some cols →
    cols ≠ [] →
    shuffle_right_path s
      (group_focus cur
         (set_columns
            (set_width (100 / Z.of_nat (length cols))%Z <$> cols) s)).

(** The relations above are preorders: they compose along a method. *)

#[global] Instance same_structure_preorder : PreOrder same_structure.
Proof.
  split.
  - by intros s.
  - intros s1 s2 s3 (?&?&?&?) (?&?&?&?). unfold same_structure.
    split_and!; congruence.
Qed.

#[global] Instance same_widths_preorder : PreOrder same_widths.
Proof.
  split; [by intros s|]. intros s1 s2 s3. unfold same_widths. congruence.
Qed.

#[global] Instance stays_empty_preorder : PreOrder stays_empty.
Proof.
  split.
  - intros s Hs. exact Hs.
  - intros s1 s2 s3 H1 H2 H. by apply H2, H1.
Qed.

#[global] Instance same_clients_preorder : PreOrder same_clients.
Proof.
  split.
  - by intros s.
  - intros s1 s2 s3 [H1 H1'] [H2 H2']. split; [by etrans | congruence].
Qed.

(** * Properties *)

(** Runs the monadic plumbing of a method body on a symbolic layout. *)
Ltac exec :=
  cbv [bind get modify try ret raise alter_column set_widths focus group_focus
       state_of];
  cbn [set_columns set_clients set_current_window set_group_focused
       current_window clients columns group_focused negb].

(** ** The list primitives *)

Section ListFacts.
Context {A : Type} `{EqDecision A}.
Implicit Types (x : A) (l : list A).

Lemma index_Some x l i :
  Py.index x l = Some i ↔ l !! i = Some x ∧ ∀ j, j < i → l !! j ≠ Some x.
Proof.
  revert i. induction l as [|y l IH]; intros i; simpl.
  - split; [discriminate | intros [? _]; discriminate].
  - destruct (decide (y = x)) as [->|Hne].
    + split.
      * intros [= <-]. split; [done | intros j Hj; lia].
      * intros [Hi Hleast]. destruct i as [|i]; [done|].
        exfalso. apply (Hleast 0); [lia | done].
    + destruct (Py.index x l) as [k|]; simpl.
      * split.
        -- intros [= <-]. destruct (proj1 (IH k) eq_refl) as [Hk Hleast].
           split; [done|].
           intros [|j] Hj; simpl; [congruence | apply Hleast; lia].
        -- intros [Hi Hleast]. destruct i as [|i]; simpl in *; [congruence|].
           assert (Some k = Some i) as [= ->]; [|done].
           apply IH. split; [done|].
           intros j Hj. apply (Hleast (S j)). lia.
      * split; [discriminate|].
        intros [Hi Hleast]. destruct i as [|i]; simpl in *; [congruence|].
        assert (@None nat = Some i) as Hi'; [|discriminate].
        apply IH. split; [done|]. intros j Hj. apply (Hleast (S j)). lia.
Qed.

Lemma index_None x l : Py.index x l = None ↔ x ∉ l.
Proof.
  induction l as [|y l IH]; simpl.
  - split; [intros _; apply not_elem_of_nil | done].
  - rewrite not_elem_of_cons. destruct (decide (y = x)) as [->|Hne].
    + split; [discriminate | intros [? _]; done].
    + destruct (Py.index x l); simpl.
      * split; [discriminate|]. intros [_ Hn]. by apply IH in Hn.
      * split; [|done]. intros _. split; [congruence | by apply IH].
Qed.

Lemma index_elem_of x l : x ∈ l → is_Some (Py.index x l).
Proof.
  intros Hin. destruct (Py.index x l) eqn:Hi; [by eexists|].
  by apply index_None in Hi.
Qed.

Lemma index_lt x l i : Py.index x l = Some i → i < length l.
Proof. intros [Hi _]%index_Some. by eapply lookup_lt_Some. Qed.

Lemma index_first x l : Py.index x (x :: l) = Some 0.
Proof. simpl. by rewrite decide_True. Qed.

(** [l.remove(x)] deletes the position that [l.index(x)] reports. *)
Lemma remove_index x l : Py.remove x l = (λ i, delete i l) <$> Py.index x l.
Proof.
  induction l as [|y l IH]; simpl; [done|].
  destruct (decide (y = x)); [done|].
  rewrite IH. by destruct (Py.index x l).
Qed.

Lemma remove_elem_of x l : x ∈ l → is_Some (Py.remove x l).
Proof.
  intros [i Hi]%index_elem_of. rewrite remove_index, Hi. by eexists.
Qed.

Lemma remove_length x l l' : Py.remove x l = Some l' → length l = S (length l').
Proof.
  rewrite remove_index. destruct (Py.index x l) as [i|] eqn:Hi; [|done].
  intros [= <-]. apply index_lt in Hi.
  rewrite length_delete by (by apply lookup_lt_is_Some). lia.
Qed.

Lemma contains_elem_of x l : Py.contains x l = true ↔ x ∈ l.
Proof. unfold Py.contains. by rewrite bool_decide_eq_true. Qed.

Lemma getitem_nat l (i : nat) : Py.getitem l (Z.of_nat i) = l !! i.
Proof.
  unfold Py.getitem. rewrite decide_True by lia. by rewrite Nat2Z.id.
Qed.

(** [l[-1]] is the last element. *)
Lemma getitem_minus_one l : Py.getitem l (-1) = last l.
Proof.
  unfold Py.getitem. rewrite decide_False by lia.
  destruct l as [|y l _] using rev_ind; [done|].
  rewrite length_app, last_snoc; simpl.
  rewrite decide_True by lia.
  replace (Z.to_nat _) with (length l + 0) by lia.
  by rewrite lookup_app_r, Nat.add_comm, Nat.sub_diag by lia.
Qed.

(** [l[len(l)]] is out of range. *)
Lemma getitem_length l : Py.getitem l (Z.of_nat (length l)) = None.
Proof. rewrite getitem_nat. by apply lookup_ge_None. Qed.
End ListFacts.

(** ** Scenarios *)

(** The scenarios of the layout's behaviour, run on the embedding. *)

Example shuffle_right_scenario :
  run [Add 1; Add 2; ShuffleRight] init =
  Ok tt (mkWmii (Some 2) [1; 2]
           [mkColumn (Some 1) 50%Z split [1]; mkColumn (Some 0) 50%Z split [2]]
           [2]).
Proof. vm_compute. reflexivity. Qed.

Example cmd_left_scenario :
  let s := mkWmii (Some 2) [1; 2; 3]
             [mkColumn (Some 0) 33%Z split [1]; mkColumn (Some 0) 33%Z split [2];
              mkColumn (Some 0) 33%Z split [3]] [] in
  current_window (state_of (run [CmdLeft] s)) = Some 1 ∧
  current_window (state_of (run [CmdLeft; CmdLeft] s)) = Some 1.
Proof. vm_compute. split; reflexivity. Qed.

Example cmd_up_scenario :
  let s := mkWmii (Some 1) [1; 2; 3] [mkColumn (Some 0) 100%Z stack [1; 2; 3]] [] in
  current_window (state_of (cmd_up s)) = Some 3 ∧
  active <$> columns (state_of (cmd_up s)) = [Some 2].
Proof. vm_compute. split; reflexivity. Qed.

(** ** Locating the focused client *)

Lemma find_column_Some client cols i c :
  find_column client cols = Some (i, c) ↔
  cols !! i = Some c ∧ client ∈ rows c ∧
  ∀ j d, cols !! j = Some d → j < i → client ∉ rows d.
Proof. apply (list_find_Some (λ c, client ∈ rows c)). Qed.

Lemma find_column_None client cols :
  find_column client cols = None ↔ Forall (λ c, client ∉ rows c) cols.
Proof. apply (list_find_None (λ c, client ∈ rows c)). Qed.

(** [self.columns.index(c)] compares dicts by value, but the first column
    that holds a client has no equal before it. *)
Lemma find_column_index client cols i c :
  find_column client cols = Some (i, c) → Py.index c cols = Some i.
Proof.
  intros (Hi & Hin & Hleast)%find_column_Some.
  apply index_Some. split; [done|].
  intros j Hj Hc. by apply (Hleast j c).
Qed.

Lemma current_column_Some s w i c :
  current_window s = Some w →
  find_column w (columns s) = Some (i, c) →
  current_column s = Some (i, c).
Proof. unfold current_column. by intros -> ->. Qed.

Lemma current_column_None s :
  current_window s = None ∨
  (∃ w, current_window s = Some w ∧ Forall (λ c, w ∉ rows c) (columns s)) →
  current_column s = None.
Proof.
  unfold current_column. intros [-> | (w & -> & Hw)]; [done|].
  by apply find_column_None.
Qed.

Lemma focused_row_Some s w c ridx :
  current_window s = Some w →
  Py.index w (rows c) = Some ridx →
  focused_row s c = Some ridx.
Proof. intros Hw Hi. unfold focused_row. by rewrite Hw. Qed.

(** ** Updating the column store *)

(** [focus] writes the ['active'] entry only. *)
Lemma focus_column_rows x c : rows (focus_column x c) = rows c.
Proof. unfold focus_column. by destruct (Py.index x (rows c)). Qed.

Lemma focus_column_width x c : width (focus_column x c) = width c.
Proof. unfold focus_column. by destruct (Py.index x (rows c)). Qed.

Lemma focus_column_mode x c : mode (focus_column x c) = mode c.
Proof. unfold focus_column. by destruct (Py.index x (rows c)). Qed.

Lemma focus_columns_rows x (cols : list Column) :
  rows <$> (focus_column x <$> cols) = rows <$> cols.
Proof.
  rewrite <- list_fmap_compose. apply list_fmap_ext.
  intros _ d _. apply focus_column_rows.
Qed.

Lemma alter_lookup {A} (f : A → A) (l : list A) i x :
  l !! i = Some x → alter f i l = <[i := f x]> l.
Proof.
  intros Hi. rewrite list_insert_alter. apply list_alter_ext; [|done].
  intros y Hy. congruence.
Qed.

Lemma delete_alter {A} (f : A → A) (l : list A) i :
  delete i (alter f i l) = delete i l.
Proof. revert i. induction l; intros [|i]; simpl; f_equal; auto. Qed.

(** Removing, by value, a column that was just emptied drops that very
    column when no column before it is empty. *)
Lemma remove_emptied_column (cols' : list Column) i c :
  cols' !! i = Some c →
  rows c = [] →
  (∀ j d, cols' !! j = Some d → j < i → rows d ≠ []) →
  Py.remove c cols' = Some (delete i cols').
Proof.
  intros Hi Hc Hne. rewrite remove_index.
  assert (Py.index c cols' = Some i) as ->; [|done].
  apply index_Some. split; [done|].
  intros j Hj Hd. by apply (Hne j c).
Qed.

Lemma remove_emptied_column_alter cols i c :
  cols !! i = Some c →
  no_empty_column cols →
  Py.remove (set_rows [] c) (alter (set_rows []) i cols) = Some (delete i cols).
Proof.
  intros Hi Hne.
  rewrite (remove_emptied_column _ i); [by rewrite delete_alter| | done |].
  - by rewrite list_lookup_alter_eq, Hi.
  - intros j d Hd Hj. rewrite list_lookup_alter_ne in Hd by lia.
    unfold no_empty_column in Hne. rewrite Forall_lookup in Hne. by eapply Hne.
Qed.

(** ** Removing the only client *)

Lemma add_first_client a :
  add a init = Ok tt (mkWmii (Some a) [a] [mkColumn (Some 0) 100%Z split [a]] []).
Proof.
  unfold add, focus, focus_column. cbn -[Py.index].
  unfold modify. cbn -[Py.index]. by rewrite index_first.
Qed.

(** When the focused client is the only row of the only column, [remove]
    deletes that column and then divides by the number of columns left. *)
Lemma remove_sole_client_raises s client c :
  client ∈ clients s →
  current_window s = Some client →
  columns s = [c] →
  rows c = [client] →
  ∃ l, Py.remove client (clients s) = Some l ∧
       remove client s =
       Raise ZeroDivisionError (mkWmii None l [] (group_focused s)).
Proof.
  intros Hreg Hfocus Hcols Hrows.
  destruct (remove_elem_of _ _ Hreg) as [l Hl]. exists l. split; [done|].
  assert (find_column client (columns s) = Some (0, c)) as Hfind.
  { apply find_column_Some. rewrite Hcols, Hrows.
    split; [done|]. split; [apply list_elem_of_here | intros; lia]. }
  unfold remove. exec.
  rewrite (proj2 (contains_elem_of _ _) Hreg). exec.
  rewrite Hl. exec.
  rewrite bool_decide_true by done. exec.
  rewrite Hfind. exec. rewrite Hrows, index_first. exec.
  rewrite (find_column_index _ _ _ _ Hfind). exec.
  cbn [Py.remove]. rewrite decide_True by done. exec.
  cbn [rows set_rows length]. rewrite bool_decide_true by done. exec.
  rewrite Hcols. cbn [alter list_alter Py.remove].
  rewrite decide_True by done. exec.
  unfold share. cbn [length]. rewrite decide_True by done. done.
Qed.

(** C1.  Adding one client to the empty layout and removing it again does
    not leave the placeholder column behind: [remove] deletes the only
    column and raises [ZeroDivisionError] on the width of the columns that
    are left. *)
Theorem add_remove_single_client_raises (a : Client) :
  run [Add a; Remove a] init = Raise ZeroDivisionError (mkWmii None [] [] []).
Proof.
  cbn [run run_op]. unfold bind at 1. rewrite add_first_client.
  unfold bind at 1. unfold bind at 1.
  destruct (remove_sole_client_raises
              (mkWmii (Some a) [a] [mkColumn (Some 0) 100%Z split [a]] [])
              a (mkColumn (Some 0) 100%Z split [a]))
    as (l & Hl & ->); [apply list_elem_of_here | done..|].
  cbn [clients Py.remove] in Hl. rewrite decide_True in Hl by done.
  by injection Hl as <-.
Qed.

(** [remove] of a client that does not hold the focus leaves it in its
    column, so that add-then-remove can also end with rows in place. *)
Example add_remove_leaves_row :
  run [Add 1; Add 2; Remove 1; Remove 2] init =
  Ok tt (mkWmii (Some 1) [] [mkColumn (Some 0) 100%Z split [1]] []).
Proof. vm_compute. reflexivity. Qed.

(** C2.  The layout with one client is reachable and has one column;
    removing that client raises, and the layout is left with no column. *)
Theorem remove_reaches_zero_columns (a : Client) :
  let s := state_of (run_op (Add a) init) in
  reachable s ∧
  length (columns s) = 1 ∧
  ∃ s', run_op (Remove a) s = Raise ZeroDivisionError s' ∧
        reachable s' ∧
        length (columns s') = 0.
Proof.
  intros s. split; [apply reachable_step, reachable_init|].
  assert (∃ s', run_op (Remove a) s = Raise ZeroDivisionError s' ∧
                length (columns s') = 0) as (s' & Hrun & Hlen).
  { subst s. cbn [run_op]. rewrite add_first_client. cbn [state_of].
    destruct (remove_sole_client_raises
                (mkWmii (Some a) [a] [mkColumn (Some 0) 100%Z split [a]] [])
                a (mkColumn (Some 0) 100%Z split [a]))
      as (l & _ & Hremove); [apply list_elem_of_here | done..|].
    eexists. unfold bind. rewrite Hremove. done. }
  split; [subst s; cbn [run_op]; by rewrite add_first_client|].
  exists s'. split; [done|]. split; [|done].
  replace s' with (state_of (run_op (Remove a) s)) by (by rewrite Hrun).
  apply reachable_step, reachable_step, reachable_init.
Qed.

(** ** [remove] *)



(** C3, as stated, fails for a focused client that is no longer registered:
    in [stale_focus] the focus is on client [2], row 1 of the column
    [[1; 2]], and [remove 2] returns nothing and changes nothing, where the
    statement has it return client [1] with the focus on it. *)
Lemma remove_focused_unregistered_noop :
  current_window stale_focus = Some 2 ∧
  rows <$> columns stale_focus = [[1; 2]] ∧
  remove 2 stale_focus = Ok None stale_focus.
Proof. vm_compute. repeat split. Qed.

(** C3, amended.  [remove] of a registered client that holds the focus and
    sits at row [ridx] of its column, when the column keeps at least one
    row: the client leaves the registry and the column, the focus goes to
    the client now at row [max (ridx - 1) 0] of that column, and that client
    is returned. *)
Theorem remove_focused_keeps_column s client i c ridx r :
  client ∈ clients s →
  current_window s = Some client →
  find_column client (columns s) = Some (i, c) →
  Py.index client (rows c) = Some ridx →
  Py.remove client (rows c) = Some r →
  r ≠ [] →
  ∃ newclient s' c',
    remove client s = Ok (Some newclient) s' ∧
    current_window s' = Some newclient ∧
    columns s' !! i = Some c' ∧
    rows c' = r ∧
    rows c' !! Z.to_nat (Z.max (Z.of_nat ridx - 1) 0) = Some newclient ∧
    columns s' = focus_column newclient <$> <[i := set_rows r c]> (columns s) ∧
    Py.remove client (clients s) = Some (clients s').
Proof.
  intros Hreg Hfocus Hfind Hridx Hr Hne.
  destruct (remove_elem_of _ _ Hreg) as [l Hl].
  pose proof (find_column_index _ _ _ _ Hfind) as Hcidx.
  apply find_column_Some in Hfind as Hfind'.
  destruct Hfind' as (Hi & Hin & Hleast).
  pose proof (index_lt _ _ _ Hridx) as Hlt.
  pose proof (remove_length _ _ _ Hr) as Hlen.
  assert (is_Some (r !! Z.to_nat (Z.max (Z.of_nat ridx - 1) 0)))
    as [newclient Hnew].
  { apply lookup_lt_is_Some. destruct r; [done|]. simpl in *. lia. }
  exists newclient.
  exists (mkWmii (Some newclient) l
            (focus_column newclient <$> <[i := set_rows r c]> (columns s))
            (group_focused s)).
  exists (focus_column newclient (set_rows r c)).
  assert (rows (focus_column newclient (set_rows r c)) = r) as Hrows.
  { by rewrite focus_column_rows. }
  split; [|split; [done|]; split; [|by rewrite Hrows]].
  - unfold remove. exec.
    rewrite (proj2 (contains_elem_of _ _) Hreg). exec.
    rewrite Hl. exec.
    rewrite bool_decide_true by done. exec.
    rewrite Hfind. exec. rewrite Hridx. exec. rewrite Hcidx. exec.
    rewrite Hr. exec.
    cbn [rows set_rows].
    rewrite bool_decide_false by (destruct r; done). exec.
    replace (if bool_decide (0 < ridx) then ridx - 1 else ridx)
      with (Z.to_nat (Z.max (Z.of_nat ridx - 1) 0)) by (case_bool_decide; lia).
    rewrite Hnew. exec.
    by rewrite (alter_lookup _ _ _ _ Hi).
  - cbn [columns]. rewrite list_lookup_fmap, list_lookup_insert_eq; [done|].
    by eapply lookup_lt_Some.
Qed.

(** On [three_clients], removing the focused client [3] from row 2. *)
Lemma remove_focused_keeps_column_witness :
  ∃ newclient s' c',
    remove 3 three_clients = Ok (Some newclient) s' ∧
    current_window s' = Some newclient ∧
    columns s' !! 0 = Some c' ∧
    rows c' = [1; 2] ∧
    rows c' !! Z.to_nat (Z.max (Z.of_nat 2 - 1) 0) = Some newclient ∧
    columns s' =
      focus_column newclient
        <$> <[0 := set_rows [1; 2] (mkColumn (Some 2) 100%Z split [1; 2; 3])]>
              (columns three_clients) ∧
    Py.remove 3 (clients three_clients) = Some (clients s').
Proof.
  apply (remove_focused_keeps_column three_clients 3 0
           (mkColumn (Some 2) 100%Z split [1; 2; 3]) 2 [1; 2]).
  - vm_compute. do 2 apply list_elem_of_further. apply list_elem_of_here.
  - reflexivity.
  - vm_compute. reflexivity.
  - vm_compute. reflexivity.
  - vm_compute. reflexivity.
  - discriminate.
Defined.

(** C4.  When the column emptied by [remove] of the focused client is the
    only one, [remove] does not return: in [one_client] the focus is on
    client [1], alone in the single column, and [remove 1] deletes the
    column and raises [ZeroDivisionError] on the width of the columns that
    are left, which leaves a layout without columns. *)
Lemma remove_focused_sole_column_raises :
  current_window one_client = Some 1 ∧
  rows <$> columns one_client = [[1]] ∧
  remove 1 one_client = Raise ZeroDivisionError (mkWmii None [] [] []).
Proof. vm_compute. repeat split. Qed.

(** X21.  In a layout of at least two columns, none of them empty,
    [remove] of a registered client that holds the focus and is the only row
    of its column: the column is deleted and every column left gets the
    width [100 / n], with [n] the number of columns left.  When [n = 1]
    nothing is returned; otherwise the column to the left of the deleted one
    (the first column, if the deleted one was first) is picked, its first
    row becomes the focused client, and that client is returned. *)
Theorem remove_focused_drops_column s client i c :
  client ∈ clients s →
  current_window s = Some client →
  find_column client (columns s) = Some (i, c) →
  Py.remove client (rows c) = Some [] →
  2 ≤ length (columns s) →
  no_empty_column (columns s) →
  let n := length (columns s) - 1 in
  let newwidth := (100 / Z.of_nat n)%Z in
  let rest := set_width newwidth <$> delete i (columns s) in
  ∃ result s',
    remove client s = Ok result s' ∧
    length (columns s') = n ∧
    rows <$> columns s' = delete i (rows <$> columns s) ∧
    Forall (λ d, width d = newwidth) (columns s') ∧
    if decide (n = 1)
    then result = None ∧ columns s' = rest
    else ∃ d newclient,
        rest !! Z.to_nat (Z.max (Z.of_nat i - 1) 0) = Some d ∧
        rows d !! 0 = Some newclient ∧
        result = Some newclient ∧
        current_window s' = Some newclient ∧
        columns s' = focus_column newclient <$> rest.
Proof.
  intros Hreg Hfocus Hfind Hr Hlen Hne n newwidth rest.
  destruct (remove_elem_of _ _ Hreg) as [l Hl].
  pose proof (find_column_index _ _ _ _ Hfind) as Hcidx.
  apply find_column_Some in Hfind as Hfind'.
  destruct Hfind' as (Hi & Hin & Hleast).
  destruct (index_elem_of _ _ Hin) as [ridx Hridx].
  pose proof (lookup_lt_Some _ _ _ Hi) as Hilt.
  assert (length (delete i (columns s)) = n) as Hdel.
  { by rewrite length_delete by eauto. }
  assert (remove client s =
          (if bool_decide (n = 1) then ret None else
           c0 <- try IndexError
                   (rest !! (if bool_decide (0 < i) then i - 1 else i)) ;;
           newclient <- try IndexError (rows c0 !! 0) ;;
           modify (set_current_window (Some newclient)) ;;
           group_focus newclient ;;
           ret (Some newclient))
            (set_columns rest (set_current_window None (set_clients l s))))
    as ->.
  { unfold remove. exec.
    rewrite (proj2 (contains_elem_of _ _) Hreg). exec.
    rewrite Hl. exec.
    rewrite bool_decide_true by done. exec.
    rewrite Hfind. exec. rewrite Hridx. exec. rewrite Hcidx. exec.
    rewrite Hr. exec.
    cbn [rows set_rows length]. rewrite bool_decide_true by done. exec.
    rewrite remove_emptied_column_alter by done. exec.
    unfold share. rewrite Hdel. rewrite decide_False by lia. exec.
    by rewrite length_fmap, Hdel. }
  assert (rows <$> rest = delete i (rows <$> columns s)) as Hrows.
  { unfold rest. rewrite <- list_fmap_compose.
    rewrite (list_fmap_ext (rows ∘ set_width newwidth) rows) by done.
    apply list_fmap_delete. }
  assert (Forall (λ d, width d = newwidth) rest) as Hwidths.
  { unfold rest. by apply Forall_fmap, Forall_true. }
  assert (∀ x, Forall (λ d, width d = newwidth) (focus_column x <$> rest))
    as Hfocus_widths.
  { intros x. apply Forall_fmap. eapply Forall_impl; [exact Hwidths|].
    intros d Hd. change (width (focus_column x d) = newwidth).
    by rewrite focus_column_width. }
  case_decide as Hn.
  - rewrite bool_decide_true by done. exec.
    eexists _, _. split; [reflexivity|]. exec.
    split; [by unfold rest; rewrite length_fmap|]. done.
  - rewrite bool_decide_false by done. exec.
    replace (if bool_decide (0 < i) then i - 1 else i)
      with (Z.to_nat (Z.max (Z.of_nat i - 1) 0)) by (case_bool_decide; lia).
    assert (is_Some (rest !! Z.to_nat (Z.max (Z.of_nat i - 1) 0))) as [d Hd].
    { apply lookup_lt_is_Some. unfold rest. rewrite length_fmap, Hdel. lia. }
    assert (is_Some (rows d !! 0)) as [newclient Hnew].
    { apply lookup_lt_is_Some.
      unfold rest in Hd. rewrite list_lookup_fmap in Hd.
      destruct (delete i (columns s) !! _) as [d0|] eqn:Hd0; [|done].
      injection Hd as <-. cbn [rows set_width].
      assert (d0 ∈ columns s) as Hmem.
      { rewrite list_lookup_delete in Hd0.
        case_decide; by eapply list_elem_of_lookup_2. }
      unfold no_empty_column in Hne.
      rewrite Forall_forall in Hne. specialize (Hne d0 Hmem).
      destruct (rows d0); [done | simpl; lia]. }
    rewrite Hd. exec. rewrite Hnew. exec.
    eexists _, _. split; [reflexivity|]. exec.
    rewrite focus_columns_rows.
    split; [by unfold rest; rewrite !length_fmap|].
    split; [done|]. split; [done|].
    by exists d, newclient.
Qed.

(** On [three_columns], removing the focused client [3], alone in the last
    column. *)
Lemma remove_focused_drops_column_witness :
  let s := three_columns in
  let n := length (columns s) - 1 in
  let newwidth := (100 / Z.of_nat n)%Z in
  let rest := set_width newwidth <$> delete 2 (columns s) in
  ∃ result s',
    remove 3 s = Ok result s' ∧
    length (columns s') = n ∧
    rows <$> columns s' = delete 2 (rows <$> columns s) ∧
    Forall (λ d, width d = newwidth) (columns s') ∧
    if decide (n = 1)
    then result = None ∧ columns s' = rest
    else ∃ d newclient,
        rest !! Z.to_nat (Z.max (Z.of_nat 2 - 1) 0) = Some d ∧
        rows d !! 0 = Some newclient ∧
        result = Some newclient ∧
        current_window s' = Some newclient ∧
        columns s' = focus_column newclient <$> rest.
Proof.
  apply (remove_focused_drops_column three_columns 3 2
           (mkColumn (Some 0) 33%Z split [3])).
  - vm_compute. do 2 apply list_elem_of_further. apply list_elem_of_here.
  - reflexivity.
  - vm_compute. reflexivity.
  - vm_compute. reflexivity.
  - vm_compute. lia.
  - vm_compute. repeat constructor; discriminate.
Defined.

(** ** Vertical navigation *)

(** C10.  With no focused client, or with a focused client that is in no
    column's rows, [cmd_up] and [cmd_down] return without raising and leave
    the whole layout as it was. *)
Theorem cmd_up_down_unfocused s :
  current_window s = None ∨
  (∃ w, current_window s = Some w ∧ Forall (λ c, w ∉ rows c) (columns s)) →
  cmd_up s = Ok tt s ∧ cmd_down s = Ok tt s.
Proof.
  intros Hc%current_column_None.
  unfold cmd_up, cmd_down. exec. by rewrite Hc.
Qed.

(** On the empty layout, where nothing is focused. *)
Lemma cmd_up_down_unfocused_witness :
  cmd_up init = Ok tt init ∧ cmd_down init = Ok tt init.
Proof. apply (cmd_up_down_unfocused init). left. reflexivity. Defined.

(** C6.  With the focus on the client at row [ridx] of its column, [cmd_up]
    does nothing when the column is split and [ridx = 0]; hands the client
    of row [ridx - 1] to the focus delegate when [0 < ridx]; and, when the
    column is stacked and [ridx = 0], hands it the client of the last row.
    The delegate makes that client the focused one. *)
Theorem cmd_up_spec s w i c ridx :
  current_window s = Some w →
  find_column w (columns s) = Some (i, c) →
  Py.index w (rows c) = Some ridx →
  (mode c = split → ridx = 0 → cmd_up s = Ok tt s) ∧
  (0 < ridx → ∃ client,
      rows c !! (ridx - 1) = Some client ∧
      cmd_up s = group_focus client s ∧
      current_window (state_of (cmd_up s)) = Some client) ∧
  (mode c = stack → ridx = 0 → ∃ client,
      last (rows c) = Some client ∧
      cmd_up s = group_focus client s ∧
      current_window (state_of (cmd_up s)) = Some client).
Proof.
  intros Hw Hfind Hridx.
  assert (∀ client,
            current_window (state_of (group_focus client s)) = Some client)
    as Hfocused by done.
  pose proof (index_lt _ _ _ Hridx) as Hlt.
  unfold cmd_up. exec.
  rewrite (current_column_Some _ _ _ _ Hw Hfind).
  rewrite (focused_row_Some _ _ _ _ Hw Hridx). exec.
  split; [|split].
  - by intros -> ->.
  - intros Hpos.
    destruct (lookup_lt_is_Some_2 (rows c) (ridx - 1)) as [client Hclient];
      [lia|].
    exists client. split; [done|].
    rewrite (bool_decide_false (ridx = 0)) by lia. rewrite andb_false_r.
    replace (Z.of_nat ridx - 1)%Z with (Z.of_nat (ridx - 1)) by lia.
    rewrite getitem_nat, Hclient. exec. done.
  - intros Hmode ->.
    rewrite Hmode. rewrite (bool_decide_false (stack = split)) by done.
    cbn [andb Z.of_nat Z.sub Z.add Z.opp Z.pos_sub].
    rewrite getitem_minus_one.
    destruct (last (rows c)) as [client|] eqn:Hlast.
    + by exists client.
    + apply last_None in Hlast. rewrite Hlast in Hlt. simpl in Hlt. lia.
Qed.

(** On [stacked_top], with the focus on the top row of a stacked column. *)
Lemma cmd_up_spec_witness :
  let s := stacked_top in
  let c := mkColumn (Some 0) 100%Z stack [1; 2; 3] in
  (mode c = split → 0 = 0 → cmd_up s = Ok tt s) ∧
  (0 < 0 → ∃ client,
      rows c !! (0 - 1) = Some client ∧
      cmd_up s = group_focus client s ∧
      current_window (state_of (cmd_up s)) = Some client) ∧
  (mode c = stack → 0 = 0 → ∃ client,
      last (rows c) = Some client ∧
      cmd_up s = group_focus client s ∧
      current_window (state_of (cmd_up s)) = Some client).
Proof.
  apply (cmd_up_spec stacked_top 1 0 (mkColumn (Some 0) 100%Z stack [1; 2; 3]) 0).
  - reflexivity.
  - vm_compute. reflexivity.
  - vm_compute. reflexivity.
Defined.

(** At the bottom row of a stacked column [cmd_down] reads one past the
    end of the rows. *)
Lemma cmd_down_bottom_stack s w i c ridx :
  current_window s = Some w →
  find_column w (columns s) = Some (i, c) →
  Py.index w (rows c) = Some ridx →
  S ridx = length (rows c) →
  mode c = stack →
  cmd_down s = Raise IndexError s.
Proof.
  intros Hw Hfind Hridx Hbottom Hmode.
  unfold cmd_down. exec.
  rewrite (current_column_Some _ _ _ _ Hw Hfind).
  rewrite (focused_row_Some _ _ _ _ Hw Hridx). exec.
  rewrite Hmode. rewrite (bool_decide_false (stack = split)) by done.
  cbn [andb].
  replace (Z.of_nat ridx + 1)%Z with (Z.of_nat (length (rows c))) by lia.
  by rewrite getitem_length.
Qed.

(** C7.  In [stacked_pair] the focus is on client [2], the bottom row of
    the stacked column [[1; 2]]; [cmd_down] does not wrap to client [1] but
    raises [IndexError], leaving the layout as it was. *)
Theorem cmd_down_stacked_bottom_raises :
  current_window stacked_pair = Some 2 ∧
  columns stacked_pair = [mkColumn (Some 1) 100%Z stack [1; 2]] ∧
  cmd_down stacked_pair = Raise IndexError stacked_pair.
Proof.
  split; [reflexivity|]. split; [vm_compute; reflexivity|].
  apply (cmd_down_bottom_stack stacked_pair 2 0
           (mkColumn (Some 1) 100%Z stack [1; 2]) 1);
    vm_compute; reflexivity.
Qed.

(** ** Reordering within a column *)

(** At the bottom row [cmd_shuffle_down] still calls [swap], whose first
    read is one past the end of the rows. *)
Lemma cmd_shuffle_down_bottom s w i c ridx :
  current_window s = Some w →
  find_column w (columns s) = Some (i, c) →
  Py.index w (rows c) = Some ridx →
  S ridx = length (rows c) →
  cmd_shuffle_down s = Raise IndexError s.
Proof.
  intros Hw Hfind Hridx Hbottom.
  unfold cmd_shuffle_down. exec.
  rewrite (current_column_Some _ _ _ _ Hw Hfind).
  rewrite (focused_row_Some _ _ _ _ Hw Hridx). exec.
  rewrite bool_decide_true by lia.
  unfold swap.
  replace (Z.of_nat ridx + 1)%Z with (Z.of_nat (length (rows c))) by lia.
  by rewrite getitem_length.
Qed.

(** Above the bottom row the swap goes through. *)
Example cmd_shuffle_down_swaps :
  run [Add 1; Add 2; Focus 1; ShuffleDown] init =
  Ok tt (mkWmii (Some 1) [1; 2] [mkColumn (Some 1) 100%Z split [2; 1]] [1]).
Proof. vm_compute. reflexivity. Qed.

(** C8.  In [two_clients] the focus is on client [2], the last row of the
    column [[1; 2]]; [cmd_shuffle_down] is not a no-op but raises
    [IndexError] from the read past the end of the rows. *)
Theorem cmd_shuffle_down_last_row_raises :
  current_window two_clients = Some 2 ∧
  columns two_clients = [mkColumn (Some 1) 100%Z split [1; 2]] ∧
  cmd_shuffle_down two_clients = Raise IndexError two_clients.
Proof.
  split; [reflexivity|]. split; [vm_compute; reflexivity|].
  apply (cmd_shuffle_down_bottom two_clients 2 0
           (mkColumn (Some 1) 100%Z split [1; 2]) 1);
    vm_compute; reflexivity.
Qed.

(** ** [add_column] *)


(** ** Reachable layouts

    In every layout the host can bring about, as soon as there are two
    columns or more each of them has a row.  The by-value
    [self.columns.remove(c)] of an emptied column therefore drops that very
    column, and the first row of a neighbouring column can be read. *)

Lemma no_empty_column_ok cols : no_empty_column cols → columns_ok cols.
Proof. by intros H _. Qed.

Lemma columns_ok_except cols i :
  columns_ok cols → i < length cols → nonempty_except i cols.
Proof.
  intros Hok Hi j d Hd Hne.
  assert (2 ≤ length cols) as Hlen.
  { apply lookup_lt_Some in Hd. lia. }
  specialize (Hok Hlen). unfold no_empty_column in Hok.
  rewrite Forall_lookup in Hok. by eapply Hok.
Qed.

Lemma nonempty_except_alter cols i j f :
  nonempty_except i cols →
  (∀ c, rows c ≠ [] → rows (f c) ≠ []) →
  nonempty_except i (alter f j cols).
Proof.
  intros Hex Hf k d Hd Hk.
  destruct (decide (j = k)) as [->|Hjk].
  - rewrite list_lookup_alter_eq in Hd.
    destruct (cols !! k) as [d0|] eqn:Hd0; [|done].
    injection Hd as <-. apply Hf. by eapply Hex.
  - rewrite list_lookup_alter_ne in Hd by done. by eapply Hex.
Qed.

Lemma nonempty_except_alter_same cols i f :
  nonempty_except i cols → nonempty_except i (alter f i cols).
Proof.
  intros Hex k d Hd Hk.
  rewrite list_lookup_alter_ne in Hd by done. by eapply Hex.
Qed.

Lemma nonempty_except_delete cols i :
  nonempty_except i cols → no_empty_column (delete i cols).
Proof.
  intros Hex. apply Forall_lookup. intros j d Hd.
  rewrite list_lookup_delete in Hd. case_decide; eapply Hex; eauto; lia.
Qed.

Lemma nonempty_except_fill cols i c :
  nonempty_except i cols → cols !! i = Some c → rows c ≠ [] →
  no_empty_column cols.
Proof.
  intros Hex Hi Hc. apply Forall_lookup. intros j d Hd.
  destruct (decide (j = i)) as [->|Hne]; [congruence | by eapply Hex].
Qed.

Lemma no_empty_column_fmap cols f :
  (∀ c, rows (f c) = rows c) →
  no_empty_column cols → no_empty_column (f <$> cols).
Proof.
  intros Hf Hne. apply Forall_fmap. eapply Forall_impl; [exact Hne|].
  intros c Hc. change (rows (f c) ≠ []). by rewrite Hf.
Qed.

Lemma columns_ok_fmap cols f :
  (∀ c, rows (f c) = rows c) →
  columns_ok cols → columns_ok (f <$> cols).
Proof.
  intros Hf Hok Hlen. rewrite length_fmap in Hlen.
  by apply no_empty_column_fmap, Hok.
Qed.

Lemma columns_ok_alter cols i f :
  (∀ c, rows c ≠ [] → rows (f c) ≠ []) →
  columns_ok cols → columns_ok (alter f i cols).
Proof.
  intros Hf Hok Hlen. rewrite length_alter in Hlen.
  specialize (Hok Hlen). apply Forall_lookup. intros j d Hd.
  unfold no_empty_column in Hok. rewrite Forall_lookup in Hok.
  destruct (decide (i = j)) as [->|Hij].
  - rewrite list_lookup_alter_eq in Hd.
    destruct (cols !! j) as [d0|] eqn:Hd0; [|done].
    injection Hd as <-. apply Hf. by eapply Hok.
  - rewrite list_lookup_alter_ne in Hd by done. by eapply Hok.
Qed.

(** *** The operations keep it *)

Lemma preserves_ret {A} (a : A) : preserves (ret a).
Proof. by intros s Hs. Qed.

Lemma preserves_raise {A} e : preserves (@raise A e).
Proof. by intros s Hs. Qed.

Lemma preserves_bind {A B} (m : M A) (k : A → M B) :
  preserves m → (∀ a, preserves (k a)) → preserves (bind m k).
Proof.
  intros Hm Hk s Hs. unfold bind. specialize (Hm s Hs).
  destruct (m s) as [a s'|e s']; [by apply Hk | done].
Qed.

Lemma preserves_try {A} e (o : option A) : preserves (try e o).
Proof. destruct o; [apply preserves_ret | apply preserves_raise]. Qed.

Lemma preserves_get : preserves get.
Proof. by intros s Hs. Qed.

Lemma preserves_focus client : preserves (focus client).
Proof.
  intros s Hs. unfold focus, modify. cbn [state_of columns set_columns].
  apply columns_ok_fmap; [apply focus_column_rows | done].
Qed.

Lemma preserves_group_focus client : preserves (group_focus client).
Proof.
  unfold group_focus. apply preserves_bind; [by intros s Hs|].
  intros _. apply preserves_focus.
Qed.

Lemma preserves_alter_column i f :
  (∀ c, rows c ≠ [] → rows (f c) ≠ []) → preserves (alter_column i f).
Proof. intros Hf s Hs. by apply columns_ok_alter. Qed.

Lemma preserves_set_widths w : preserves (set_widths w).
Proof. intros s Hs. by apply columns_ok_fmap. Qed.

Lemma preserves_get_bind {B} (k : Wmii → M B) :
  (∀ s, preserves (k s)) → preserves (bind get k).
Proof. intros Hk s Hs. by apply Hk. Qed.

Lemma preserves_modify_group f :
  (∀ s, columns (f s) = columns s) → preserves (modify f).
Proof. intros Hf s Hs. unfold modify. cbn [state_of]. by rewrite Hf. Qed.

Lemma preserves_try_bind {A B} e (o : option A) (k : A → M B) :
  (∀ a, o = Some a → preserves (k a)) → preserves (bind (try e o) k).
Proof.
  intros Hk. destruct o as [a|]; [|by intros s Hs].
  intros s Hs. by apply (Hk a).
Qed.

Ltac pres_step :=
  lazymatch goal with
  | |- preserves (ret _) => apply preserves_ret
  | |- preserves (raise _) => apply preserves_raise
  | |- preserves (try _ _) => apply preserves_try
  | |- preserves (focus _) => apply preserves_focus
  | |- preserves (group_focus _) => apply preserves_group_focus
  | |- preserves (set_widths _) => apply preserves_set_widths
  | |- preserves (bind get _) => apply preserves_get_bind; intros ?
  | |- preserves (bind (try _ _) _) => apply preserves_try_bind; intros ? ?
  | |- preserves (bind _ _) => apply preserves_bind; [|intros ?]
  | |- preserves (match _ with _ => _ end) => case_match
  end.
Ltac pres := repeat pres_step.

Lemma preserves_cmd_up : preserves cmd_up.
Proof. unfold cmd_up. pres. Qed.

Lemma preserves_cmd_down : preserves cmd_down.
Proof. unfold cmd_down. pres. Qed.

Lemma preserves_cmd_left : preserves cmd_left.
Proof. unfold cmd_left. pres. Qed.

Lemma preserves_cmd_right : preserves cmd_right.
Proof. unfold cmd_right. pres. Qed.

Lemma preserves_cmd_toggle_split : preserves cmd_toggle_split.
Proof. unfold cmd_toggle_split. pres; by apply preserves_alter_column. Qed.

Lemma preserves_add client : preserves (add client).
Proof.
  unfold add. pres; try by apply preserves_modify_group.
  apply preserves_alter_column. intros d _. cbn [rows set_rows].
  intros [_ ?]%app_eq_nil. done.
Qed.

Lemma setitem_length {A} (l l' : list A) i x :
  Py.setitem l i x = Some l' → length l' = length l.
Proof.
  unfold Py.setitem. repeat case_decide; intros [= <-]; by rewrite length_insert.
Qed.

Lemma swap_length {A} (l l' : list A) a b :
  swap l a b = Some l' → length l' = length l.
Proof.
  unfold swap. intros H.
  destruct (Py.getitem l b) as [tmp|]; [|done]. cbn in H.
  destruct (Py.getitem l a) as [x|]; [|done]. cbn in H.
  destruct (Py.setitem l b x) as [l1|] eqn:H1; [|done]. cbn in H.
  apply setitem_length in H, H1. congruence.
Qed.

Lemma swap_nonempty {A} (l l' : list A) a b :
  swap l a b = Some l' → l' ≠ [].
Proof.
  intros H. pose proof (swap_length _ _ _ _ H) as Hlen.
  unfold swap in H. destruct l as [|y l]; [|by destruct l'].
  unfold Py.getitem in H. cbn in H. by repeat case_decide.
Qed.

Lemma preserves_cmd_shuffle_down : preserves cmd_shuffle_down.
Proof.
  unfold cmd_shuffle_down. pres.
  apply preserves_alter_column. intros d _. cbn [rows set_rows].
  by eapply swap_nonempty.
Qed.

Lemma preserves_cmd_shuffle_up : preserves cmd_shuffle_up.
Proof.
  unfold cmd_shuffle_up. pres.
  apply preserves_alter_column. intros d _. cbn [rows set_rows].
  by eapply swap_nonempty.
Qed.

Lemma find_column_lt client cols i c :
  find_column client cols = Some (i, c) → i < length cols.
Proof. intros (Hi & _)%find_column_Some. by eapply lookup_lt_Some. Qed.

Lemma preserves_remove client : preserves (remove client).
Proof.
  intros s Hs. unfold remove. exec.
  destruct (Py.contains client (clients s)); exec; [|done].
  destruct (Py.remove client (clients s)) as [l|]; exec; [|done].
  destruct (bool_decide (current_window s = Some client)); exec; [|done].
  destruct (find_column client (columns s)) as [[i c]|] eqn:Hfind; exec;
    [|done].
  pose proof (find_column_lt _ _ _ _ Hfind) as Hlt.
  apply find_column_Some in Hfind as (Hi & _ & _).
  destruct (Py.index client (rows c)) as [ridx|]; exec; [|done].
  destruct (Py.index c (columns s)) as [cidx|]; exec; [|done].
  destruct (Py.remove client (rows c)) as [r|]; exec; [|done].
  cbn [rows set_rows].
  pose proof (columns_ok_except _ i Hs Hlt) as Hex.
  apply (nonempty_except_alter_same _ _ (set_rows r)) in Hex.
  destruct r as [|x r].
  - rewrite bool_decide_true by done. exec.
    rewrite (remove_emptied_column _ i); [exec| | done |].
    + apply nonempty_except_delete in Hex.
      unfold share. case_decide; exec; [by apply no_empty_column_ok|].
      assert (∀ f, (∀ c, rows (f c) = rows c) →
                columns_ok (f <$> (set_width (100 `div` Z.of_nat
                   (length (delete i (alter (set_rows []) i (columns s)))))
                   <$> delete i (alter (set_rows []) i (columns s))))) as Hfinal.
      { intros f Hf. apply no_empty_column_ok.
        by do 2 (apply no_empty_column_fmap; [done|]). }
      specialize (Hfinal id (λ _, eq_refl)) as Hmid. rewrite list_fmap_id in Hmid.
      case_bool_decide; exec; [done|].
      destruct (_ !! (if bool_decide (0 < cidx) then _ else _)) as [c0|];
        exec; [|done].
      destruct (rows c0 !! 0) as [newclient|]; exec; [|done].
      unfold focus, modify. exec. apply Hfinal, focus_column_rows.
    + by rewrite list_lookup_alter_eq, Hi.
    + intros j d Hd Hj. eapply Hex; [done | lia].
  - rewrite bool_decide_false by done. exec.
    assert (no_empty_column (alter (set_rows (x :: r)) i (columns s))) as Hne.
    { eapply nonempty_except_fill; [done| |].
      - by rewrite list_lookup_alter_eq, Hi.
      - done. }
    destruct (_ !! (if bool_decide (0 < ridx) then _ else _)) as [newclient|];
      exec; [|by apply no_empty_column_ok].
    unfold focus, modify. exec.
    by apply no_empty_column_ok, no_empty_column_fmap; [apply focus_column_rows|].
Qed.

Lemma nonempty_except_fmap cols i f :
  (∀ c, rows (f c) = rows c) →
  nonempty_except i cols → nonempty_except i (f <$> cols).
Proof.
  intros Hf Hex j d Hd Hj. rewrite list_lookup_fmap in Hd.
  destruct (cols !! j) as [d0|] eqn:Hd0; [|done].
  injection Hd as <-. rewrite Hf. by eapply Hex.
Qed.

Lemma nonempty_except_cons cols i new :
  rows new ≠ [] →
  nonempty_except i cols → nonempty_except (S i) (new :: cols).
Proof.
  intros Hnew Hex [|j] d Hd Hj; simpl in Hd; [congruence|].
  eapply Hex; [done | lia].
Qed.

Lemma nonempty_except_snoc cols i new :
  rows new ≠ [] →
  nonempty_except i cols → nonempty_except i (cols ++ [new]).
Proof.
  intros Hnew Hex j d Hd Hj.
  apply lookup_app_Some in Hd as [Hd|[_ Hd]]; [by eapply Hex|].
  apply list_lookup_singleton_Some in Hd as [_ <-]. done.
Qed.

(** [drop_if_empty] on the column at position [i], the only one that may
    be empty, leaves no empty column, whether it returns or raises. *)
Lemma drop_if_empty_ok s i c :
  columns s !! i = Some c →
  nonempty_except i (columns s) →
  no_empty_column (columns (state_of (drop_if_empty c s))).
Proof.
  intros Hi Hex. unfold drop_if_empty.
  case_bool_decide as Hempty.
  - unfold remove_column. exec.
    rewrite (remove_emptied_column _ i);
      [exec | done | by apply length_zero_iff_nil
      | intros j d Hd Hj; eapply Hex; [done | lia]].
    apply nonempty_except_delete in Hex.
    unfold share. case_decide; exec; [done|].
    by apply no_empty_column_fmap.
  - exec. eapply nonempty_except_fill; [done..|].
    intros Hnil. by rewrite Hnil in Hempty.
Qed.

(** What is left of a horizontal shuffle once the client has moved. *)
Lemma shuffle_tail_ok s i c cur :
  columns s !! i = Some c →
  nonempty_except i (columns s) →
  columns_ok (columns (state_of ((drop_if_empty c ;; group_focus cur) s))).
Proof.
  intros Hi Hex. pose proof (drop_if_empty_ok s i c Hi Hex) as Hne.
  unfold bind at 1.
  destruct (drop_if_empty c s) as [[] s'|e s']; cbn [state_of] in *.
  - by apply preserves_group_focus, no_empty_column_ok.
  - by apply no_empty_column_ok.
Qed.

Lemma remove_nonempty {A} `{EqDecision A} (x : A) (l r : list A) :
  Py.remove x l = Some r → length l ≠ 1 → r ≠ [].
Proof. intros Hlen%remove_length Hne ->. simpl in Hlen. lia. Qed.

(** Single steps of a method body. *)
Lemma bind_ret {A B} (a : A) (k : A → M B) s : bind (ret a) k s = k a s.
Proof. reflexivity. Qed.

Lemma bind_get {B} (k : Wmii → M B) s : bind get k s = k s s.
Proof. reflexivity. Qed.

Lemma bind_try {A B} e (o : option A) a (k : A → M B) s :
  o = Some a → bind (try e o) k s = k a s.
Proof. by intros ->. Qed.

Lemma bind_alter_column {B} i f (k : unit → M B) s :
  bind (alter_column i f) k s = k tt (set_columns (alter f i (columns s)) s).
Proof. reflexivity. Qed.

Lemma bind_column_at {B} p c (k : Column → M B) s :
  columns s !! p = Some c → bind (column_at p) k s = k c s.
Proof. intros Hp. unfold column_at. exec. by rewrite Hp. Qed.

Lemma bind_add_column {B} prepend win (k : unit → M B) s :
  let newwidth := (100 / (Z.of_nat (length (columns s)) + 1))%Z in
  let new := mkColumn None newwidth split [win] in
  let old := set_width newwidth <$> columns s in
  bind (add_column prepend win) k s =
  k tt (set_columns (if prepend then new :: old else old ++ [new]) s).
Proof. unfold add_column. by destruct prepend. Qed.

Lemma lookup_cons_S {A} (x : A) (l : list A) i : (x :: l) !! S i = l !! i.
Proof. reflexivity. Qed.

Lemma preserves_cmd_shuffle_left : preserves cmd_shuffle_left.
Proof.
  intros s Hs. unfold cmd_shuffle_left. rewrite bind_get.
  destruct (current_window s) as [cur|]; [|done].
  destruct (find_column cur (columns s)) as [[i c]|] eqn:Hfind; [|done].
  rewrite (bind_try _ _ _ _ _ (find_column_index _ _ _ _ Hfind)).
  pose proof (find_column_lt _ _ _ _ Hfind) as Hlt.
  apply find_column_Some in Hfind as (Hi & Hin & _).
  destruct (remove_elem_of _ _ Hin) as [r Hr].
  pose proof (columns_ok_except _ i Hs Hlt) as Hex.
  apply (nonempty_except_alter_same _ _ (set_rows r)) in Hex.
  assert (alter (set_rows r) i (columns s) !! i = Some (set_rows r c)) as Hi'.
  { by rewrite list_lookup_alter_eq, Hi. }
  case_bool_decide as Hi0.
  - case_bool_decide as Hone; [done|].
    pose proof (remove_nonempty _ _ _ Hr Hone) as Hrne.
    rewrite (bind_try _ _ _ _ _ Hr), bind_alter_column, bind_add_column.
    cbn [columns set_columns].
    set (newwidth := (100 / _)%Z).
    rewrite (bind_column_at _ (set_width newwidth (set_rows r c))).
    2:{ cbn [columns set_columns].
        by rewrite lookup_cons_S, list_lookup_fmap, Hi'. }
    cbn [rows set_width set_rows].
    rewrite bool_decide_false by (by destruct r).
    rewrite bind_ret.
    apply (shuffle_tail_ok _ (S i)).
    + cbn [columns set_columns].
      by rewrite lookup_cons_S, list_lookup_fmap, Hi'.
    + cbn [columns set_columns]. apply nonempty_except_cons; [done|].
      by apply nonempty_except_fmap.
  - rewrite (bind_try _ _ _ _ _ Hr), bind_alter_column, bind_get.
    cbn [columns set_columns].
    destruct (lookup_lt_is_Some_2 (alter (set_rows r) i (columns s)) (i - 1))
      as [d Hd]; [rewrite length_alter; lia|].
    rewrite (bind_try _ _ _ _ _ Hd), bind_alter_column.
    cbn [columns set_columns].
    rewrite (bind_column_at _ (set_rows r c)).
    2:{ cbn [columns set_columns].
        by rewrite list_lookup_alter_ne by lia. }
    apply (shuffle_tail_ok _ i).
    + cbn [columns set_columns]. by rewrite list_lookup_alter_ne by lia.
    + cbn [columns set_columns]. apply nonempty_except_alter; [done|].
      intros d0 _. cbn [rows set_rows]. by intros [_ ?]%app_eq_nil.
Qed.

Lemma preserves_cmd_shuffle_right : preserves cmd_shuffle_right.
Proof.
  intros s Hs. unfold cmd_shuffle_right. rewrite bind_get.
  destruct (current_window s) as [cur|]; [|done].
  destruct (find_column cur (columns s)) as [[i c]|] eqn:Hfind; [|done].
  rewrite (bind_try _ _ _ _ _ (find_column_index _ _ _ _ Hfind)).
  pose proof (find_column_lt _ _ _ _ Hfind) as Hlt.
  apply find_column_Some in Hfind as (Hi & Hin & _).
  destruct (remove_elem_of _ _ Hin) as [r Hr].
  pose proof (columns_ok_except _ i Hs Hlt) as Hex.
  apply (nonempty_except_alter_same _ _ (set_rows r)) in Hex.
  assert (alter (set_rows r) i (columns s) !! i = Some (set_rows r c)) as Hi'.
  { by rewrite list_lookup_alter_eq, Hi. }
  case_bool_decide as Hlast.
  - case_bool_decide as Hone; [done|].
    pose proof (remove_nonempty _ _ _ Hr Hone) as Hrne.
    rewrite (bind_try _ _ _ _ _ Hr), bind_alter_column, bind_add_column.
    cbn [columns set_columns].
    set (newwidth := (100 / _)%Z).
    assert (((set_width newwidth <$> alter (set_rows r) i (columns s))
             ++ [mkColumn None newwidth split [cur]]) !! i
            = Some (set_width newwidth (set_rows r c))) as Hi''.
    { rewrite lookup_app_l by (by rewrite length_fmap, length_alter).
      by rewrite list_lookup_fmap, Hi'. }
    rewrite (bind_column_at _ (set_width newwidth (set_rows r c))) by done.
    cbn [rows set_width set_rows].
    rewrite bool_decide_false by (by destruct r).
    rewrite bind_ret.
    apply (shuffle_tail_ok _ i); [done|].
    cbn [columns set_columns]. apply nonempty_except_snoc; [done|].
    by apply nonempty_except_fmap.
  - rewrite (bind_try _ _ _ _ _ Hr), bind_alter_column, bind_get.
    cbn [columns set_columns].
    destruct (lookup_lt_is_Some_2 (alter (set_rows r) i (columns s)) (i + 1))
      as [d Hd]; [rewrite length_alter; lia|].
    rewrite (bind_try _ _ _ _ _ Hd), bind_alter_column.
    cbn [columns set_columns].
    rewrite (bind_column_at _ (set_rows r c)).
    2:{ cbn [columns set_columns].
        by rewrite list_lookup_alter_ne by lia. }
    apply (shuffle_tail_ok _ i).
    + cbn [columns set_columns]. by rewrite list_lookup_alter_ne by lia.
    + cbn [columns set_columns]. apply nonempty_except_alter; [done|].
      intros d0 _. cbn [rows set_rows]. by intros [_ ?]%app_eq_nil.
Qed.

Lemma preserves_run_op o : preserves (run_op o).
Proof.
  destruct o; cbn [run_op].
  - apply preserves_add.
  - apply preserves_bind; [apply preserves_remove | intros ?; apply preserves_ret].
  - apply preserves_focus.
  - apply preserves_cmd_toggle_split.
  - apply preserves_cmd_left.
  - apply preserves_cmd_right.
  - apply preserves_cmd_up.
  - apply preserves_cmd_down.
  - apply preserves_cmd_shuffle_left.
  - apply preserves_cmd_shuffle_right.
  - apply preserves_cmd_shuffle_up.
  - apply preserves_cmd_shuffle_down.
Qed.

Theorem reachable_columns_ok s : reachable s → columns_ok (columns s).
Proof.
  induction 1 as [|o s _ IH].
  - intros Hlen. simpl in Hlen. lia.
  - by apply preserves_run_op.
Qed.

(** A run of calls from a reachable layout ends in a reachable layout. *)
Lemma reachable_run ops s : reachable s → reachable (state_of (run ops s)).
Proof.
  revert s. induction ops as [|o ops IH]; intros s Hs; [done|].
  cbn [run]. unfold bind.
  pose proof (reachable_step o s Hs) as Hstep.
  destruct (run_op o s) as [[] s'|e s']; cbn [state_of] in *; [by apply IH | done].
Qed.

(** The sample layouts are reachable. *)
Example sample_layouts_reachable :
  reachable one_client ∧ reachable two_clients ∧ reachable three_clients ∧
  reachable stacked_pair ∧ reachable stacked_top ∧ reachable three_columns ∧
  reachable stale_focus.
Proof. repeat split; apply reachable_run, reachable_init. Qed.

(** * Further properties *)

(** ** More on the list primitives *)

Lemma remove_Permutation {A} `{EqDecision A} (x : A) (l l' : list A) :
  Py.remove x l = Some l' → l ≡ₚ x :: l'.
Proof.
  rewrite remove_index. destruct (Py.index x l) as [i|] eqn:Hi; [|done].
  intros [= <-]. apply index_Some in Hi as [Hi _]. by apply delete_Permutation.
Qed.

Lemma remove_Some_elem_of {A} `{EqDecision A} (x : A) (l l' : list A) :
  Py.remove x l = Some l' → x ∈ l.
Proof.
  intros H. destruct (decide (x ∈ l)) as [|Hn]; [done|].
  apply index_None in Hn. by rewrite remove_index, Hn in H.
Qed.

Lemma remove_not_elem_of {A} `{EqDecision A} (x : A) (l : list A) :
  x ∉ l → Py.remove x (l ++ [x]) = Some l.
Proof.
  induction l as [|y l IH]; intros Hn; simpl.
  - by rewrite decide_True.
  - apply not_elem_of_cons in Hn as [Hxy Hn].
    rewrite decide_False by done. by rewrite IH.
Qed.

Lemma index_not_elem_of {A} `{EqDecision A} (x : A) (l : list A) :
  x ∉ l → Py.index x (l ++ [x]) = Some (length l).
Proof.
  induction l as [|y l IH]; intros Hn; simpl.
  - by rewrite decide_True.
  - apply not_elem_of_cons in Hn as [Hxy Hn].
    rewrite decide_False by done. by rewrite IH.
Qed.

Lemma insert_Permutation {A} (l : list A) i x y :
  l !! i = Some y → <[i := x]> l ≡ₚ x :: delete i l.
Proof.
  revert i. induction l as [|z l IH]; intros [|i] Hi; simplify_eq/=; [done|].
  rewrite (IH i Hi). apply Permutation_swap.
Qed.

Lemma getitem_Some {A} (l : list A) (i : Z) x :
  Py.getitem l i = Some x →
  ∃ n, l !! n = Some x ∧ ∀ y, Py.setitem l i y = Some (<[n := y]> l).
Proof.
  unfold Py.getitem, Py.setitem. intros H.
  destruct (decide (0 ≤ i)%Z).
  - exists (Z.to_nat i). split; [done|]. intros y.
    rewrite decide_True; [done|]. by eapply lookup_lt_Some.
  - destruct (decide (- Z.of_nat (length l) ≤ i)%Z); [|done].
    by exists (Z.to_nat (Z.of_nat (length l) + i)).
Qed.

Lemma getitem_None {A} (l : list A) (i : Z) :
  Py.getitem l i = None ↔
  ¬ (- Z.of_nat (length l) ≤ i < Z.of_nat (length l))%Z.
Proof.
  unfold Py.getitem. destruct (decide (0 ≤ i)%Z).
  - rewrite lookup_ge_None. lia.
  - destruct (decide (- Z.of_nat (length l) ≤ i)%Z).
    + rewrite lookup_ge_None. lia.
    + split; [lia | done].
Qed.

Lemma setitem_None {A} (l : list A) (i : Z) x :
  Py.setitem l i x = None ↔
  ¬ (- Z.of_nat (length l) ≤ i < Z.of_nat (length l))%Z.
Proof.
  unfold Py.setitem. repeat case_decide; split; (done || lia).
Qed.

Lemma setitem_nat {A} (l : list A) (i : nat) x :
  i < length l → Py.setitem l (Z.of_nat i) x = Some (<[i := x]> l).
Proof.
  intros Hi. unfold Py.setitem. rewrite decide_True by lia.
  rewrite Nat2Z.id. by rewrite decide_True.
Qed.

Lemma exchange_Permutation {A} (l : list A) a b x y :
  l !! a = Some x → l !! b = Some y →
  <[a := y]> (<[b := x]> l) ≡ₚ l.
Proof.
  revert a b. induction l as [|z l IH]; intros [|a] [|b] Ha Hb; simplify_eq/=.
  - done.
  - etrans; [apply perm_skip, (insert_Permutation _ _ _ _ Hb)|].
    etrans; [apply Permutation_swap|].
    apply perm_skip. symmetry. by apply delete_Permutation.
  - etrans; [apply perm_skip, (insert_Permutation _ _ _ _ Ha)|].
    etrans; [apply Permutation_swap|].
    apply perm_skip. symmetry. by apply delete_Permutation.
  - by rewrite IH.
Qed.

Lemma swap_nat {A} (l : list A) (a b : nat) x y :
  l !! a = Some x →
  l !! b = Some y →
  swap l (Z.of_nat a) (Z.of_nat b) = Some (<[a := y]> (<[b := x]> l)).
Proof.
  intros Ha Hb.
  pose proof (lookup_lt_Some _ _ _ Ha) as Hla.
  pose proof (lookup_lt_Some _ _ _ Hb) as Hlb.
  unfold swap. rewrite !getitem_nat, Ha, Hb. simpl.
  rewrite setitem_nat by done. simpl.
  by rewrite setitem_nat by (by rewrite length_insert).
Qed.

(** X1.  With both positions in range, [swap] exchanges the elements at
    the two positions and leaves the others where they are; the result has
    the same length and the same elements. *)
Theorem swap_exchanges {A} (l : list A) (a b : nat) x y :
  l !! a = Some x →
  l !! b = Some y →
  ∃ l',
    swap l (Z.of_nat a) (Z.of_nat b) = Some l' ∧
    l' !! a = Some y ∧
    l' !! b = Some x ∧
    (∀ k, k ≠ a → k ≠ b → l' !! k = l !! k) ∧
    length l' = length l ∧
    l' ≡ₚ l.
Proof.
  intros Ha Hb.
  pose proof (lookup_lt_Some _ _ _ Ha) as Hla.
  pose proof (lookup_lt_Some _ _ _ Hb) as Hlb.
  exists (<[a := y]> (<[b := x]> l)). split; [by apply swap_nat|].
  split; [by rewrite list_lookup_insert_eq by (rewrite length_insert; lia)|].
  split.
  { destruct (decide (a = b)) as [->|Hab].
    - rewrite list_lookup_insert_eq by (rewrite length_insert; lia). congruence.
    - rewrite list_lookup_insert_ne by done.
      by rewrite list_lookup_insert_eq by lia. }
  split; [intros k Hka Hkb; by rewrite !list_lookup_insert_ne by done|].
  split; [by rewrite !length_insert|].
  by apply exchange_Permutation.
Qed.

Lemma swap_exchanges_witness :
  ∃ l',
    swap [10; 20; 30] (Z.of_nat 0) (Z.of_nat 2) = Some l' ∧
    l' !! 0 = Some 30 ∧
    l' !! 2 = Some 10 ∧
    (∀ k, k ≠ 0 → k ≠ 2 → l' !! k = [10; 20; 30] !! k) ∧
    length l' = length [10; 20; 30] ∧
    l' ≡ₚ [10; 20; 30].
Proof. apply (swap_exchanges [10; 20; 30] 0 2 10 30); reflexivity. Defined.

Lemma swap_None {A} (l : list A) (a b : Z) :
  swap l a b = None ↔
  ¬ ((- Z.of_nat (length l) ≤ a < Z.of_nat (length l))%Z ∧
     (- Z.of_nat (length l) ≤ b < Z.of_nat (length l))%Z).
Proof.
  unfold swap.
  destruct (Py.getitem l b) as [tmp|] eqn:Hb; simpl.
  - destruct (Py.getitem l a) as [x|] eqn:Ha; simpl.
    + destruct (getitem_Some _ _ _ Hb) as (nb & Hnb & Hsb).
      destruct (getitem_Some _ _ _ Ha) as (na & Hna & Hsa).
      rewrite Hsb. simpl.
      destruct (Py.setitem (<[nb := x]> l) a tmp) as [l'|] eqn:Hz.
      * split; [done|]. intros Hr. exfalso. apply Hr. split.
        -- apply dec_stable. rewrite <- getitem_None. congruence.
        -- apply dec_stable. rewrite <- getitem_None. congruence.
      * apply setitem_None in Hz. rewrite length_insert in Hz.
        apply getitem_None in Hz. congruence.
    + split; [|done]. intros _ [Hr _]. by apply getitem_None in Ha.
  - split; [|done]. intros _ [_ Hr]. by apply getitem_None in Hb.
Qed.

Lemma position_lt n i :
  (- Z.of_nat n ≤ i < Z.of_nat n)%Z → position n i < n.
Proof. unfold position. case_decide; lia. Qed.

Lemma getitem_position {A} (l : list A) (i : Z) :
  (- Z.of_nat (length l) ≤ i < Z.of_nat (length l))%Z →
  Py.getitem l i = l !! position (length l) i.
Proof.
  intros Hi. unfold Py.getitem, position.
  destruct (decide (0 ≤ i)%Z); [done|]. by rewrite decide_True by lia.
Qed.

Lemma setitem_position {A} (l : list A) (i : Z) x :
  (- Z.of_nat (length l) ≤ i < Z.of_nat (length l))%Z →
  Py.setitem l i x = Some (<[position (length l) i := x]> l).
Proof.
  intros Hi. unfold Py.setitem, position.
  destruct (decide (0 ≤ i)%Z).
  - by rewrite decide_True by lia.
  - by rewrite decide_True by lia.
Qed.

(** X2.  [swap] raises [IndexError] exactly when one of the two indices is
    outside [-len(array), len(array))].  With both indices in that range it
    returns, and exchanges the elements at the positions the indices stand
    for: position [i] for an index [i] that is not negative, and position
    [len(array) - k] for the index [-k], which counts from the end. *)
Theorem swap_indices {A} (l : list A) (a b : Z) :
  let in_range i := (- Z.of_nat (length l) ≤ i < Z.of_nat (length l))%Z in
  (swap l a b = None ↔ ¬ (in_range a ∧ in_range b)) ∧
  (in_range a → in_range b →
   ∃ x y,
     l !! position (length l) a = Some x ∧
     l !! position (length l) b = Some y ∧
     swap l a b =
       Some (<[position (length l) a := y]>
               (<[position (length l) b := x]> l))) ∧
  (∀ i, (0 ≤ i)%Z → position (length l) i = Z.to_nat i) ∧
  (∀ k, 0 < k ≤ length l →
     position (length l) (- Z.of_nat k) = length l - k).
Proof.
  intros in_range. subst in_range. cbn beta. split_and!.
  - apply swap_None.
  - intros Ha Hb.
    pose proof (position_lt _ _ Ha) as Hpa.
    pose proof (position_lt _ _ Hb) as Hpb.
    destruct (lookup_lt_is_Some_2 l _ Hpa) as [x Hx].
    destruct (lookup_lt_is_Some_2 l _ Hpb) as [y Hy].
    exists x, y. split; [done|]. split; [done|].
    unfold swap. rewrite !getitem_position, Hx, Hy by done. simpl.
    rewrite setitem_position by done. simpl.
    rewrite setitem_position by (by rewrite length_insert).
    by rewrite length_insert.
  - intros i Hi. unfold position. by rewrite decide_True.
  - intros k Hk. unfold position. rewrite decide_False by lia. lia.
Qed.

(** On [[10; 20; 30]], the index [-1] is the last position. *)
Lemma swap_indices_witness :
  swap [10; 20; 30] (-1) 0 = Some [30; 20; 10].
Proof.
  destruct (swap_indices [10; 20; 30] (-1) 0) as (_ & Hswap & _).
  destruct Hswap as (x & y & Hx & Hy & Hswap).
  - simpl. lia.
  - simpl. lia.
  - vm_compute in Hx, Hy. injection Hx as <-. injection Hy as <-.
    exact Hswap.
Defined.

(** ** The paths of [remove] *)

Lemma remove_Some_nil {A} `{EqDecision A} (x : A) (l : list A) :
  Py.remove x l = Some [] ↔ l = [x].
Proof.
  split.
  - intros H. pose proof (remove_length _ _ _ H) as Hlen.
    destruct l as [|y [|z l]]; simplify_eq/=.
    by case_decide; simplify_eq/=.
  - intros ->. simpl. by rewrite decide_True.
Qed.

Lemma pred_or_self (n : nat) : (if bool_decide (0 < n) then n - 1 else n) = n - 1.
Proof. case_bool_decide; lia. Qed.

(** Writes a layout built with the setters as a record. *)
Ltac norm_state :=
  cbv [set_current_window set_clients set_columns set_group_focused];
  cbn [current_window clients columns group_focused].

(** [remove] always follows one of the paths of [remove_path]. *)
Lemma remove_path_complete s client : remove_path s client (remove client s).
Proof.
  unfold remove. exec.
  destruct (decide (client ∈ clients s)) as [Hreg|Hreg].
  2:{ replace (Py.contains client (clients s)) with false
        by (symmetry; by apply bool_decide_eq_false).
      exec. by constructor. }
  rewrite (proj2 (contains_elem_of _ _) Hreg). exec.
  destruct (remove_elem_of _ _ Hreg) as [l Hl]. rewrite Hl. exec.
  case_bool_decide as Hfocus; exec; [|by apply via_remove_unfocused].
  destruct (find_column client (columns s)) as [[i c]|] eqn:Hfind; exec;
    [|norm_state; by apply via_remove_unplaced].
  rewrite (find_column_index _ _ _ _ Hfind). exec.
  pose proof (find_column_lt _ _ _ _ Hfind) as Hlt.
  apply find_column_Some in Hfind as Hfind'.
  destruct Hfind' as (Hi & Hin & _).
  destruct (index_elem_of _ _ Hin) as [ridx Hridx]. rewrite Hridx. exec.
  destruct (remove_elem_of _ _ Hin) as [r Hr]. rewrite Hr. exec.
  cbn [rows set_rows]. rewrite (alter_lookup _ _ _ _ Hi).
  pose proof (remove_length _ _ _ Hr) as Hlen.
  pose proof (index_lt _ _ _ Hridx) as Hrlt.
  destruct r as [|x r].
  - apply remove_Some_nil in Hr as Hrows.
    rewrite bool_decide_true by done. exec.
    assert (set_rows [] c ∈ <[i := set_rows [] c]> (columns s)) as Hmem.
    { eapply list_elem_of_lookup_2. by apply list_lookup_insert_eq. }
    destruct (remove_elem_of _ _ Hmem) as [cols Hcols]. rewrite Hcols. exec.
    pose proof (remove_length _ _ _ Hcols) as Hclen.
    rewrite length_insert in Hclen.
    unfold share. case_decide as Hzero; exec.
    { apply length_zero_iff_nil in Hzero as ->. norm_state.
      apply (via_remove_only_column _ _ _ c); try done.
      destruct (columns s) as [|c0 [|c1 cs]]; simplify_eq/=.
      destruct i; simplify_eq/=. done. }
    rewrite length_fmap. case_bool_decide as Hone; exec.
    { rewrite Hone. norm_state. by eapply via_remove_column_one. }
    rewrite pred_or_self, list_lookup_fmap.
    destruct (lookup_lt_is_Some_2 cols (i - 1)) as [d Hd]; [lia|].
    rewrite Hd. exec. cbn [fmap option_fmap option_map rows set_width].
    destruct (rows d !! 0) as [newclient|] eqn:Hnew; exec.
    + norm_state. eapply via_remove_column_neighbour; (done || lia).
    + norm_state. eapply via_remove_column_empty_neighbour; try (done || lia).
      by destruct (rows d).
  - rewrite bool_decide_false by done. exec. rewrite pred_or_self.
    destruct (lookup_lt_is_Some_2 (x :: r) (ridx - 1)) as [newclient Hnew];
      [simpl in *; lia|].
    rewrite Hnew. exec. norm_state. by eapply via_remove_row.
Qed.

(** ** The paths of the horizontal shuffles *)

Lemma bind_remove_column {B} c cols (k : unit → M B) s :
  Py.remove c (columns s) = Some cols →
  bind (remove_column c) k s = k tt (set_columns cols s).
Proof. intros H. unfold remove_column. exec. by rewrite H. Qed.

Lemma bind_assoc {A B C} (m : M A) (k : A → M B) (k' : B → M C) s :
  bind (bind m k) k' s = bind m (λ a, bind (k a) k') s.
Proof. unfold bind. by destruct (m s). Qed.

(** The tail of a horizontal shuffle when the source column, at position
    [i], has been emptied. *)
Lemma shuffle_tail_drop s i c cur :
  columns s !! i = Some c →
  rows c = [] →
  2 ≤ length (columns s) →
  ∃ cols,
    Py.remove c (columns s) = Some cols ∧
    cols ≠ [] ∧
    (drop_if_empty c ;; group_focus cur) s =
    group_focus cur
      (set_columns (set_width (100 / Z.of_nat (length cols))%Z <$> cols) s).
Proof.
  intros Hi Hrows Hlen.
  destruct (remove_elem_of c (columns s)) as [cols Hcols];
    [by eapply list_elem_of_lookup_2|].
  pose proof (remove_length _ _ _ Hcols) as Hclen.
  exists cols. split; [done|]. split; [by destruct cols; [simpl in *; lia|]|].
  unfold drop_if_empty. rewrite Hrows, bool_decide_true by done.
  rewrite bind_assoc, (bind_remove_column _ _ _ _ Hcols). exec.
  unfold share. rewrite decide_False by lia. done.
Qed.

(** The tail of a horizontal shuffle when the source column keeps a row. *)
Lemma shuffle_tail_keep s c cur :
  rows c ≠ [] →
  (drop_if_empty c ;; group_focus cur) s = group_focus cur s.
Proof.
  intros Hrows. unfold drop_if_empty.
  rewrite bool_decide_false; [done|]. by intros ?%length_zero_iff_nil.
Qed.

Lemma shuffle_left_path_complete s : shuffle_left_path s (cmd_shuffle_left s).
Proof.
  unfold cmd_shuffle_left. rewrite bind_get.
  destruct (current_window s) as [cur|] eqn:Hcur;
    [|apply via_shuffle_left_idle; unfold current_column; by rewrite Hcur].
  destruct (find_column cur (columns s)) as [[i c]|] eqn:Hfind;
    [|apply via_shuffle_left_idle; unfold current_column; by rewrite Hcur].
  rewrite (bind_try _ _ _ _ _ (find_column_index _ _ _ _ Hfind)).
  pose proof (find_column_lt _ _ _ _ Hfind) as Hlt.
  apply find_column_Some in Hfind as Hfind'.
  destruct Hfind' as (Hi & Hin & _).
  destruct (remove_elem_of _ _ Hin) as [r Hr].
  assert (<[i := set_rows r c]> (columns s) !! i = Some (set_rows r c)) as Hi'.
  { by apply list_lookup_insert_eq. }
  case_bool_decide as Hi0.
  - subst i. case_bool_decide as Hone; [by eapply via_shuffle_left_alone|].
    pose proof (remove_nonempty _ _ _ Hr Hone) as Hrne.
    rewrite (bind_try _ _ _ _ _ Hr), bind_alter_column, bind_add_column.
    rewrite (alter_lookup (set_rows r) _ _ _ Hi).
    cbn [columns set_columns]. rewrite length_insert.
    set (newwidth := (100 / _)%Z).
    rewrite (bind_column_at _ (set_width newwidth (set_rows r c))).
    2:{ cbn [columns set_columns].
        by rewrite lookup_cons_S, list_lookup_fmap, Hi'. }
    cbn [rows set_width set_rows].
    rewrite bool_decide_false by (by destruct r).
    rewrite bind_ret, shuffle_tail_keep by done.
    norm_state. by eapply via_shuffle_left_new_column.
  - destruct i as [|i]; [done|].
    rewrite (bind_try _ _ _ _ _ Hr), bind_alter_column, bind_get.
    rewrite (alter_lookup (set_rows r) _ _ _ Hi).
    cbn [columns set_columns].
    replace (S i - 1) with i by lia.
    destruct (lookup_lt_is_Some_2 (columns s) i) as [d Hd]; [lia|].
    assert (<[S i := set_rows r c]> (columns s) !! i = Some d) as Hd'.
    { by rewrite list_lookup_insert_ne by lia. }
    rewrite (bind_try _ _ _ _ _ Hd'), bind_alter_column.
    cbn [columns set_columns].
    rewrite (alter_lookup _ _ _ _ Hd').
    set (cols := <[i := _]> _).
    assert (cols !! S i = Some (set_rows r c)) as Hc.
    { unfold cols. by rewrite list_lookup_insert_ne by lia. }
    rewrite (bind_column_at _ (set_rows r c)) by done.
    change (set_columns cols (set_columns _ s)) with (set_columns cols s).
    destruct r as [|x r].
    + destruct (shuffle_tail_drop (set_columns cols s) (S i) (set_rows [] c) cur)
        as (cols' & Hcols' & Hne & ->); [done..| |].
      { cbn [columns set_columns]. unfold cols. rewrite !length_insert. lia. }
      norm_state. by eapply via_shuffle_left_move_drop.
    + rewrite shuffle_tail_keep by done.
      norm_state. by eapply via_shuffle_left_move.
Qed.

Lemma shuffle_right_path_complete s :
  shuffle_right_path s (cmd_shuffle_right s).
Proof.
  unfold cmd_shuffle_right. rewrite bind_get.
  destruct (current_window s) as [cur|] eqn:Hcur;
    [|apply via_shuffle_right_idle; unfold current_column; by rewrite Hcur].
  destruct (find_column cur (columns s)) as [[i c]|] eqn:Hfind;
    [|apply via_shuffle_right_idle; unfold current_column; by rewrite Hcur].
  rewrite (bind_try _ _ _ _ _ (find_column_index _ _ _ _ Hfind)).
  pose proof (find_column_lt _ _ _ _ Hfind) as Hlt.
  apply find_column_Some in Hfind as Hfind'.
  destruct Hfind' as (Hi & Hin & _).
  destruct (remove_elem_of _ _ Hin) as [r Hr].
  assert (<[i := set_rows r c]> (columns s) !! i = Some (set_rows r c)) as Hi'.
  { by apply list_lookup_insert_eq. }
  case_bool_decide as Hlast.
  - assert (S i = length (columns s)) as Hlast' by lia.
    case_bool_decide as Hone; [by eapply via_shuffle_right_alone|].
    pose proof (remove_nonempty _ _ _ Hr Hone) as Hrne.
    rewrite (bind_try _ _ _ _ _ Hr), bind_alter_column, bind_add_column.
    rewrite (alter_lookup (set_rows r) _ _ _ Hi).
    cbn [columns set_columns]. rewrite length_insert.
    set (newwidth := (100 / _)%Z).
    rewrite (bind_column_at _ (set_width newwidth (set_rows r c))).
    2:{ cbn [columns set_columns].
        rewrite lookup_app_l by (by rewrite length_fmap, length_insert).
        by rewrite list_lookup_fmap, Hi'. }
    cbn [rows set_width set_rows].
    rewrite bool_decide_false by (by destruct r).
    rewrite bind_ret, shuffle_tail_keep by done.
    norm_state. by eapply via_shuffle_right_new_column.
  - rewrite (bind_try _ _ _ _ _ Hr), bind_alter_column, bind_get.
    rewrite (alter_lookup (set_rows r) _ _ _ Hi).
    cbn [columns set_columns].
    replace (i + 1) with (S i) by lia.
    destruct (lookup_lt_is_Some_2 (columns s) (S i)) as [d Hd]; [lia|].
    assert (<[i := set_rows r c]> (columns s) !! S i = Some d) as Hd'.
    { by rewrite list_lookup_insert_ne by lia. }
    rewrite (bind_try _ _ _ _ _ Hd'), bind_alter_column.
    cbn [columns set_columns].
    rewrite (alter_lookup _ _ _ _ Hd').
    set (cols := <[S i := _]> _).
    assert (cols !! i = Some (set_rows r c)) as Hc.
    { unfold cols. by rewrite list_lookup_insert_ne by lia. }
    rewrite (bind_column_at _ (set_rows r c)) by done.
    change (set_columns cols (set_columns _ s)) with (set_columns cols s).
    destruct r as [|x r].
    + destruct (shuffle_tail_drop (set_columns cols s) i (set_rows [] c) cur)
        as (cols' & Hcols' & Hne & ->); [done..| |].
      { cbn [columns set_columns]. unfold cols. rewrite !length_insert. lia. }
      norm_state. by eapply via_shuffle_right_move_drop.
    + rewrite shuffle_tail_keep by done.
      norm_state. by eapply via_shuffle_right_move.
Qed.

(** ** What the horizontal shuffles keep *)

Lemma shuffle_left_elim (P : outcome unit → Prop) s :
  (∀ o, shuffle_left_path s o → P o) → P (cmd_shuffle_left s).
Proof. intros H. apply H, shuffle_left_path_complete. Qed.

Lemma shuffle_right_elim (P : outcome unit → Prop) s :
  (∀ o, shuffle_right_path s o → P o) → P (cmd_shuffle_right s).
Proof. intros H. apply H, shuffle_right_path_complete. Qed.

Lemma shown_fmap (f : Column → Column) cols :
  (∀ c, rows (f c) = rows c) → shown (f <$> cols) = shown cols.
Proof.
  intros Hf. unfold shown. f_equal. rewrite <- list_fmap_compose.
  apply list_fmap_ext. intros _ c _. apply Hf.
Qed.

Lemma shown_Permutation cols cols' : cols ≡ₚ cols' → shown cols ≡ₚ shown cols'.
Proof. intros H. unfold shown. by rewrite H. Qed.

Lemma shown_cons c cols : shown (c :: cols) = rows c ++ shown cols.
Proof. reflexivity. Qed.

Lemma shown_lookup cols i c :
  cols !! i = Some c → shown cols ≡ₚ rows c ++ shown (delete i cols).
Proof.
  intros Hi. rewrite (shown_Permutation _ _ (delete_Permutation _ _ _ Hi)).
  by rewrite shown_cons.
Qed.

Lemma shown_insert cols i c c' :
  cols !! i = Some c →
  shown (<[i := c']> cols) ≡ₚ rows c' ++ shown (delete i cols).
Proof.
  intros Hi.
  rewrite (shown_Permutation _ _ (insert_Permutation _ _ c' _ Hi)).
  by rewrite shown_cons.
Qed.

Lemma shown_insert_remove cols i c x r :
  cols !! i = Some c →
  Py.remove x (rows c) = Some r →
  shown cols ≡ₚ x :: shown (<[i := set_rows r c]> cols).
Proof.
  intros Hi Hr. rewrite (shown_insert _ _ _ _ Hi), (shown_lookup _ _ _ Hi).
  cbn [rows set_rows]. by rewrite (remove_Permutation _ _ _ Hr).
Qed.

Lemma shown_insert_append cols i d x :
  cols !! i = Some d →
  shown (<[i := set_rows (rows d ++ [x]) d]> cols) ≡ₚ x :: shown cols.
Proof.
  intros Hi. rewrite (shown_insert _ _ _ _ Hi), (shown_lookup _ _ _ Hi).
  cbn [rows set_rows]. rewrite <- (assoc (++)).
  symmetry. apply Permutation_middle.
Qed.

Lemma shown_remove_empty c cols cols' :
  Py.remove c cols = Some cols' → rows c = [] → shown cols' ≡ₚ shown cols.
Proof.
  intros Hc Hrows.
  rewrite (shown_Permutation _ _ (remove_Permutation _ _ _ Hc)).
  by rewrite shown_cons, Hrows.
Qed.

(** X3.  Neither [cmd_shuffle_left] nor [cmd_shuffle_right] ever raises,
    whatever the layout: no lookup in their bodies can fail, and the column
    list is never empty when the widths are recomputed. *)
Theorem horizontal_shuffles_never_raise s :
  (∃ s', cmd_shuffle_left s = Ok tt s') ∧
  (∃ s', cmd_shuffle_right s = Ok tt s').
Proof.
  split.
  - apply shuffle_left_elim. intros o []; by eexists.
  - apply shuffle_right_elim. intros o []; by eexists.
Qed.

Lemma group_focus_conserves s cur cols :
  current_window s = Some cur →
  shown cols ≡ₚ shown (columns s) →
  conserves s (state_of (group_focus cur (set_columns cols s))).
Proof.
  intros Hcur Hcols. unfold conserves. split; [|by rewrite Hcur].
  exec. by rewrite shown_fmap by apply focus_column_rows.
Qed.

Lemma shuffle_left_conserves s : conserves s (state_of (cmd_shuffle_left s)).
Proof.
  apply shuffle_left_elim.
  intros o [?|cur c Hcur Hfind ?|cur c r Hcur Hfind Hr ? nw
            |cur i c r d Hcur Hfind Hr ? Hd
            |cur i c d cols Hcur Hfind Hr Hd Hcols ?];
    try done; apply group_focus_conserves; try done;
    apply find_column_Some in Hfind as (Hi & _ & _).
  - rewrite shown_cons, shown_fmap by done. cbn [rows].
    by rewrite <- (shown_insert_remove _ _ _ _ _ Hi Hr).
  - rewrite shown_insert_append by (by rewrite list_lookup_insert_ne by lia).
    by rewrite <- (shown_insert_remove _ _ _ _ _ Hi Hr).
  - rewrite shown_fmap by done.
    rewrite (shown_remove_empty _ _ _ Hcols) by done.
    rewrite shown_insert_append by (by rewrite list_lookup_insert_ne by lia).
    by rewrite <- (shown_insert_remove _ _ _ _ _ Hi Hr).
Qed.

Lemma shown_snoc c cols : shown (cols ++ [c]) = shown cols ++ rows c.
Proof.
  unfold shown. rewrite fmap_app, concat_app. simpl. by rewrite app_nil_r.
Qed.

Lemma shuffle_right_conserves s :
  conserves s (state_of (cmd_shuffle_right s)).
Proof.
  apply shuffle_right_elim.
  intros o [?|cur i c Hcur Hfind ? ?|cur i c r Hcur Hfind ? Hr ? nw
            |cur i c r d Hcur Hfind Hr ? Hd
            |cur i c d cols Hcur Hfind Hr Hd Hcols ?];
    try done; apply group_focus_conserves; try done;
    apply find_column_Some in Hfind as (Hi & _ & _).
  - rewrite shown_snoc, shown_fmap by done. cbn [rows].
    rewrite (shown_insert_remove _ _ _ _ _ Hi Hr).
    by rewrite <- Permutation_cons_append.
  - rewrite shown_insert_append by (by rewrite list_lookup_insert_ne by lia).
    by rewrite <- (shown_insert_remove _ _ _ _ _ Hi Hr).
  - rewrite shown_fmap by done.
    rewrite (shown_remove_empty _ _ _ Hcols) by done.
    rewrite shown_insert_append by (by rewrite list_lookup_insert_ne by lia).
    by rewrite <- (shown_insert_remove _ _ _ _ _ Hi Hr).
Qed.

(** X4.  The horizontal shuffles neither lose nor duplicate a client: the
    clients held by the columns are the same up to their order, and the
    registry and the focused window are untouched. *)
Theorem horizontal_shuffles_conserve s :
  let conserved s' :=
    shown (columns s') ≡ₚ shown (columns s) ∧
    clients s' = clients s ∧
    current_window s' = current_window s in
  conserved (state_of (cmd_shuffle_left s)) ∧
  conserved (state_of (cmd_shuffle_right s)).
Proof.
  split; [apply shuffle_left_conserves | apply shuffle_right_conserves].
Qed.

(** ** Relating the layout before and after a method *)

Section Keeps.
Context (R : Wmii → Wmii → Prop) `{!PreOrder R}.

Lemma keeps_ret {A} (a : A) : keeps R (ret a).
Proof. intros s. reflexivity. Qed.

Lemma keeps_raise {A} e : keeps R (@raise A e).
Proof. intros s. reflexivity. Qed.

Lemma keeps_try {A} e (o : option A) : keeps R (try e o).
Proof. destruct o; [apply keeps_ret | apply keeps_raise]. Qed.

Lemma keeps_bind {A B} (m : M A) (k : A → M B) :
  keeps R m → (∀ a, keeps R (k a)) → keeps R (bind m k).
Proof.
  intros Hm Hk s. unfold bind. specialize (Hm s).
  destruct (m s) as [a s'|e s']; [|done].
  cbn [state_of] in Hm. etrans; [exact Hm | apply Hk].
Qed.

Lemma keeps_get_bind {B} (k : Wmii → M B) :
  (∀ s, keeps R (k s)) → keeps R (bind get k).
Proof. intros Hk s. apply Hk. Qed.

Lemma keeps_try_bind {A B} e (o : option A) (k : A → M B) :
  (∀ a, o = Some a → keeps R (k a)) → keeps R (bind (try e o) k).
Proof.
  intros Hk. destruct o as [a|]; [|intros s; reflexivity].
  intros s. by apply (Hk a).
Qed.

Lemma keeps_modify f : (∀ s, R s (f s)) → keeps R (modify f).
Proof. intros Hf s. apply Hf. Qed.

Lemma keeps_alter_column i f :
  (∀ s, R s (set_columns (alter f i (columns s)) s)) →
  keeps R (alter_column i f).
Proof. intros Hf. by apply keeps_modify. Qed.
End Keeps.

Ltac keeps_step :=
  lazymatch goal with
  | |- keeps _ (ret _) => apply keeps_ret; tc_solve
  | |- keeps _ (raise _) => apply keeps_raise; tc_solve
  | |- keeps _ (try _ _) => apply keeps_try; tc_solve
  | |- keeps _ (bind get _) => apply keeps_get_bind; intros ?
  | |- keeps _ (bind (try _ _) _) =>
      apply keeps_try_bind; [tc_solve | intros ? ?]
  | |- keeps _ (bind _ _) => apply keeps_bind; [tc_solve | | intros ?]
  | |- keeps _ (match _ with _ => _ end) => case_match
  end.

Lemma focus_columns_width x (cols : list Column) :
  width <$> (focus_column x <$> cols) = width <$> cols.
Proof.
  rewrite <- list_fmap_compose. apply list_fmap_ext.
  intros _ d _. apply focus_column_width.
Qed.

Lemma focus_columns_mode x (cols : list Column) :
  mode <$> (focus_column x <$> cols) = mode <$> cols.
Proof.
  rewrite <- list_fmap_compose. apply list_fmap_ext.
  intros _ d _. apply focus_column_mode.
Qed.

Lemma keeps_structure_focus client : keeps same_structure (focus client).
Proof.
  intros s. unfold focus, modify, same_structure. cbn [state_of columns clients set_columns set_current_window].
  by rewrite focus_columns_rows, focus_columns_width, focus_columns_mode.
Qed.

Lemma keeps_structure_group_focus client :
  keeps same_structure (group_focus client).
Proof.
  unfold group_focus. apply keeps_bind; [tc_solve| |intros ?].
  - by apply keeps_modify.
  - apply keeps_structure_focus.
Qed.

Ltac keeps_structure :=
  repeat first
    [ apply keeps_structure_focus | apply keeps_structure_group_focus
    | keeps_step ].

(** X5.  [focus] and the four navigation commands move no client and
    change no width, no mode and no registry entry, whether they return or
    raise: only the focus and the ['active'] entries can differ. *)
Theorem navigation_keeps_structure s :
  (∀ client, same_structure s (state_of (focus client s))) ∧
  same_structure s (state_of (cmd_left s)) ∧
  same_structure s (state_of (cmd_right s)) ∧
  same_structure s (state_of (cmd_up s)) ∧
  same_structure s (state_of (cmd_down s)).
Proof.
  split_and!.
  - intros client. apply keeps_structure_focus.
  - revert s. change (keeps same_structure cmd_left).
    unfold cmd_left. keeps_structure.
  - revert s. change (keeps same_structure cmd_right).
    unfold cmd_right. keeps_structure.
  - revert s. change (keeps same_structure cmd_up).
    unfold cmd_up. keeps_structure.
  - revert s. change (keeps same_structure cmd_down).
    unfold cmd_down. keeps_structure.
Qed.

(** ** Commands and the current column *)

Lemma current_column_index_None s :
  current_column s = None → current_column_index s = None.
Proof. unfold current_column_index. by intros ->. Qed.

(** X6.  When the focused window is in no column (or nothing is focused),
    [cmd_toggle_split] raises [TypeError], [cmd_left] and [cmd_right] raise
    [ValueError], and the four shuffles return; none of them changes the
    layout. *)
Theorem commands_without_current_column s :
  current_column s = None →
  cmd_toggle_split s = Raise TypeError s ∧
  cmd_left s = Raise ValueError s ∧
  cmd_right s = Raise ValueError s ∧
  cmd_shuffle_left s = Ok tt s ∧
  cmd_shuffle_right s = Ok tt s ∧
  cmd_shuffle_up s = Ok tt s ∧
  cmd_shuffle_down s = Ok tt s.
Proof.
  intros Hc. pose proof (current_column_index_None s Hc) as Hidx.
  split_and!.
  - unfold cmd_toggle_split. exec. by rewrite Hc.
  - unfold cmd_left. exec. by rewrite Hidx.
  - unfold cmd_right. exec. by rewrite Hidx.
  - unfold cmd_shuffle_left. exec. unfold current_column in Hc.
    destruct (current_window s); [by rewrite Hc | done].
  - unfold cmd_shuffle_right. exec. unfold current_column in Hc.
    destruct (current_window s); [by rewrite Hc | done].
  - unfold cmd_shuffle_up. exec. by rewrite Hc.
  - unfold cmd_shuffle_down. exec. by rewrite Hc.
Qed.

Lemma commands_without_current_column_witness :
  cmd_toggle_split init = Raise TypeError init ∧
  cmd_left init = Raise ValueError init ∧
  cmd_right init = Raise ValueError init ∧
  cmd_shuffle_left init = Ok tt init ∧
  cmd_shuffle_right init = Ok tt init ∧
  cmd_shuffle_up init = Ok tt init ∧
  cmd_shuffle_down init = Ok tt init.
Proof. apply (commands_without_current_column init). reflexivity. Defined.

Lemma find_column_insert client cols i c c' :
  find_column client cols = Some (i, c) →
  rows c' = rows c →
  find_column client (<[i := c']> cols) = Some (i, c').
Proof.
  intros (Hi & Hin & Hleast)%find_column_Some Hrows.
  apply find_column_Some. split_and!.
  - apply list_lookup_insert_eq. by eapply lookup_lt_Some.
  - by rewrite Hrows.
  - intros j d Hd Hj. rewrite list_lookup_insert_ne in Hd by lia.
    by eapply Hleast.
Qed.

Lemma cmd_toggle_split_eq s i c :
  current_column s = Some (i, c) →
  cmd_toggle_split s =
  Ok tt (set_columns (<[i := set_mode (toggle (mode c)) c]> (columns s)) s).
Proof.
  intros Hc. unfold cmd_toggle_split. exec. rewrite Hc.
  unfold current_column in Hc. destruct (current_window s) as [w|]; [|done].
  apply find_column_Some in Hc as (Hi & _).
  destruct (mode c); simpl; exec; by rewrite (alter_lookup _ _ _ _ Hi).
Qed.

(** X7.  With the focused window in a column, [cmd_toggle_split] flips
    the mode of that column and nothing else, and a second call brings the
    layout back exactly. *)
Theorem cmd_toggle_split_twice s i c :
  current_column s = Some (i, c) →
  ∃ s1,
    cmd_toggle_split s = Ok tt s1 ∧
    columns s1 = <[i := set_mode (toggle (mode c)) c]> (columns s) ∧
    clients s1 = clients s ∧
    current_window s1 = current_window s ∧
    group_focused s1 = group_focused s ∧
    cmd_toggle_split s1 = Ok tt s.
Proof.
  intros Hc. eexists. split; [by apply cmd_toggle_split_eq|].
  split_and!; try done.
  set (c1 := set_mode (toggle (mode c)) c).
  assert (current_column (set_columns (<[i := c1]> (columns s)) s)
          = Some (i, c1)) as Hc1.
  { unfold current_column in *. cbn [current_window set_columns columns].
    destruct (current_window s); [|done]. by apply (find_column_insert _ _ _ c). }
  rewrite (cmd_toggle_split_eq _ _ _ Hc1). f_equal.
  unfold current_column in Hc. destruct (current_window s) as [w|]; [|done].
  apply find_column_Some in Hc as (Hi & _).
  cbn [columns set_columns]. rewrite list_insert_insert_eq.
  assert (set_mode (toggle (mode c1)) c1 = c) as ->.
  { unfold c1. destruct c as [a w' [] r]; reflexivity. }
  rewrite list_insert_id by done. by destruct s.
Qed.

Lemma cmd_toggle_split_twice_witness :
  ∃ s1,
    cmd_toggle_split two_clients = Ok tt s1 ∧
    columns s1 =
      <[0 := set_mode (toggle (mode (mkColumn (Some 1) 100%Z split [1; 2])))
               (mkColumn (Some 1) 100%Z split [1; 2])]> (columns two_clients) ∧
    clients s1 = clients two_clients ∧
    current_window s1 = current_window two_clients ∧
    group_focused s1 = group_focused two_clients ∧
    cmd_toggle_split s1 = Ok tt two_clients.
Proof.
  apply (cmd_toggle_split_twice two_clients 0
           (mkColumn (Some 1) 100%Z split [1; 2])).
  vm_compute. reflexivity.
Defined.

(** ** The widths of a reachable layout *)

Lemma fmap_alter_same {B} (g : Column → B) (f : Column → Column) (i : nat)
    (cols : list Column) :
  (∀ c, g (f c) = g c) → g <$> alter f i cols = g <$> cols.
Proof.
  intros Hf. apply list_eq. intros j. rewrite !list_lookup_fmap.
  destruct (decide (i = j)) as [->|Hij].
  - rewrite list_lookup_alter_eq. destruct (cols !! j); simpl; by rewrite ?Hf.
  - by rewrite list_lookup_alter_ne.
Qed.

Lemma fmap_insert_same {B} (g : Column → B) c c' (i : nat)
    (cols : list Column) :
  cols !! i = Some c → g c' = g c → g <$> <[i := c']> cols = g <$> cols.
Proof.
  intros Hi Hg. rewrite list_fmap_insert, Hg.
  apply list_insert_id. by rewrite list_lookup_fmap, Hi.
Qed.

Lemma widths_ok_same (cols cols' : list Column) :
  width <$> cols' = width <$> cols → widths_ok cols → widths_ok cols'.
Proof.
  unfold widths_ok. intros Hw Hok.
  assert (length cols' = length cols) as ->.
  { by rewrite <- (length_fmap width cols'), Hw, length_fmap. }
  pose proof (proj2 (Forall_fmap width
                (λ w, w = (100 / Z.of_nat (length cols))%Z) cols) Hok) as H.
  rewrite <- Hw in H. by apply Forall_fmap in H.
Qed.

Lemma widths_ok_set cols :
  widths_ok (set_width (100 / Z.of_nat (length cols))%Z <$> cols).
Proof.
  unfold widths_ok. rewrite length_fmap. by apply Forall_fmap, Forall_true.
Qed.

Lemma widths_ok_focus x cols :
  widths_ok cols → widths_ok (focus_column x <$> cols).
Proof. apply widths_ok_same, focus_columns_width. Qed.

Lemma keeps_widths_alter i f :
  (∀ c, width (f c) = width c) → keeps same_widths (alter_column i f).
Proof.
  intros Hf s. unfold same_widths. cbn [alter_column modify state_of columns set_columns].
  by apply fmap_alter_same.
Qed.

Lemma keeps_widths_focus client : keeps same_widths (focus client).
Proof. intros s. apply (keeps_structure_focus client s). Qed.

Lemma keeps_widths_group_focus client : keeps same_widths (group_focus client).
Proof. intros s. apply (keeps_structure_group_focus client s). Qed.

Ltac keeps_widths :=
  repeat first
    [ apply keeps_widths_focus | apply keeps_widths_group_focus
    | apply keeps_widths_alter; by intros []
    | apply keeps_modify; by intros []
    | keeps_step ].

Lemma keeps_widths_simple :
  (∀ client, keeps same_widths (add client)) ∧
  keeps same_widths cmd_toggle_split ∧
  keeps same_widths cmd_left ∧ keeps same_widths cmd_right ∧
  keeps same_widths cmd_up ∧ keeps same_widths cmd_down ∧
  keeps same_widths cmd_shuffle_up ∧ keeps same_widths cmd_shuffle_down.
Proof.
  split_and!; [intros client; unfold add|unfold cmd_toggle_split
    |unfold cmd_left|unfold cmd_right|unfold cmd_up|unfold cmd_down
    |unfold cmd_shuffle_up|unfold cmd_shuffle_down]; keeps_widths.
Qed.

Lemma remove_elim (P : outcome (option Client) → Prop) s client :
  (∀ o, remove_path s client o → P o) → P (remove client s).
Proof. intros H. apply H, remove_path_complete. Qed.

Lemma widths_ok_remove client s :
  widths_ok (columns s) → widths_ok (columns (state_of (remove client s))).
Proof.
  intros Hok. apply remove_elim.
  intros o [| | |l i c ridx r nc _ _ Hfind _ _ _| |l i c cols _ _ _ _ _ Hone
            |l i c cols d _ _ _ _ _ _ _ _|l i c cols d nc _ _ _ _ _ _ _ _];
    cbn [state_of columns set_clients]; try done.
  - apply widths_ok_focus. eapply widths_ok_same; [|done].
    apply find_column_Some in Hfind as (Hi & _).
    by apply (fmap_insert_same _ c).
  - by apply Forall_nil.
  - replace 100%Z with (100 / Z.of_nat (length cols))%Z by (by rewrite Hone).
    apply widths_ok_set.
  - apply widths_ok_set.
  - apply widths_ok_focus, widths_ok_set.
Qed.

Lemma widths_ok_new_column nw (new : Column) cols :
  nw = (100 / (Z.of_nat (length cols) + 1))%Z →
  width new = nw →
  widths_ok (new :: (set_width nw <$> cols)) ∧
  widths_ok ((set_width nw <$> cols) ++ [new]).
Proof.
  intros Hnw Hnew. unfold widths_ok.
  assert (Forall (λ c, width c = nw) (set_width nw <$> cols)) as Hold.
  { by apply Forall_fmap, Forall_true. }
  split.
  - cbn [length]. rewrite length_fmap.
    replace (Z.of_nat (S (length cols))) with (Z.of_nat (length cols) + 1)%Z
      by lia.
    rewrite <- Hnw. by constructor.
  - rewrite length_app, length_fmap. cbn [length].
    replace (Z.of_nat (length cols + 1)) with (Z.of_nat (length cols) + 1)%Z
      by lia.
    rewrite <- Hnw. apply Forall_app. split; [done|]. by constructor.
Qed.

Lemma widths_ok_shuffle_left s :
  widths_ok (columns s) → widths_ok (columns (state_of (cmd_shuffle_left s))).
Proof.
  intros Hok. apply shuffle_left_elim.
  intros o [?|cur c Hcur Hfind ?|cur c r Hcur Hfind Hr ? nw
            |cur i c r d Hcur Hfind Hr ? Hd
            |cur i c d cols Hcur Hfind Hr Hd Hcols ?];
    try done; exec; apply widths_ok_focus;
    apply find_column_Some in Hfind as (Hi & _ & _).
  - apply widths_ok_new_column; [|done]. by rewrite length_insert.
  - eapply widths_ok_same; [|done].
    rewrite (fmap_insert_same _ d) by (by rewrite ?list_lookup_insert_ne by lia).
    by apply (fmap_insert_same _ c).
  - apply widths_ok_set.
Qed.

Lemma widths_ok_shuffle_right s :
  widths_ok (columns s) → widths_ok (columns (state_of (cmd_shuffle_right s))).
Proof.
  intros Hok. apply shuffle_right_elim.
  intros o [?|cur i c Hcur Hfind ? ?|cur i c r Hcur Hfind ? Hr ? nw
            |cur i c r d Hcur Hfind Hr ? Hd
            |cur i c d cols Hcur Hfind Hr Hd Hcols ?];
    try done; exec; apply widths_ok_focus;
    apply find_column_Some in Hfind as (Hi & _ & _).
  - apply widths_ok_new_column; [|done]. by rewrite length_insert.
  - eapply widths_ok_same; [|done].
    rewrite (fmap_insert_same _ d) by (by rewrite ?list_lookup_insert_ne by lia).
    by apply (fmap_insert_same _ c).
  - apply widths_ok_set.
Qed.

Lemma widths_ok_run_op o s :
  widths_ok (columns s) → widths_ok (columns (state_of (run_op o s))).
Proof.
  destruct keeps_widths_simple
    as (Hadd & Htoggle & Hleft & Hright & Hup & Hdown & Hsup & Hsdown).
  intros Hok.
  assert (∀ m : M unit, keeps same_widths m →
            widths_ok (columns (state_of (m s)))) as Hsame.
  { intros m Hm. eapply widths_ok_same; [apply Hm | exact Hok]. }
  destruct o; cbn [run_op]; auto using keeps_widths_focus.
  - pose proof (widths_ok_remove client s Hok) as H'.
    unfold bind. by destruct (remove client s).
  - by apply widths_ok_shuffle_left.
  - by apply widths_ok_shuffle_right.
Qed.

(** X8.  In every layout the host can bring about, each column has the
    width [100 / n] (integer division), [n] being the number of columns. *)
Theorem reachable_widths_balanced s :
  reachable s →
  Forall (λ c, width c = (100 / Z.of_nat (length (columns s)))%Z) (columns s).
Proof.
  induction 1 as [|o s _ IH]; [by repeat constructor|].
  by apply widths_ok_run_op.
Qed.

Lemma reachable_widths_balanced_witness :
  Forall (λ c, width c = (100 / Z.of_nat (length (columns three_columns)))%Z)
    (columns three_columns).
Proof.
  apply (reachable_widths_balanced three_columns).
  apply reachable_run, reachable_init.
Defined.

(** ** [focus] and [add] *)

Lemma focus_column_active client c :
  client ∈ rows c →
  ∃ i, active (focus_column client c) = Some i ∧
       rows c !! i = Some client ∧
       ∀ k, k < i → rows c !! k ≠ Some client.
Proof.
  intros [i Hi]%index_elem_of. exists i. unfold focus_column. rewrite Hi.
  split; [done|]. by apply index_Some.
Qed.

Lemma focus_column_absent client c : client ∉ rows c → focus_column client c = c.
Proof. intros Hn%index_None. unfold focus_column. by rewrite Hn. Qed.

(** X9.  [focus] never raises.  It makes the client the focused window
    and, in every column that holds the client, sets ['active'] to the
    position of the client's first occurrence in the rows; columns without
    the client, and all rows, widths, modes and the registry, stay as they
    are. *)
Theorem focus_spec s client :
  ∃ s',
    focus client s = Ok tt s' ∧
    current_window s' = Some client ∧
    same_structure s s' ∧
    length (columns s') = length (columns s) ∧
    ∀ j d, columns s !! j = Some d →
      ∃ d', columns s' !! j = Some d' ∧
        (client ∉ rows d → d' = d) ∧
        (client ∈ rows d →
           ∃ i, active d' = Some i ∧ rows d' !! i = Some client ∧
                ∀ k, k < i → rows d' !! k ≠ Some client).
Proof.
  eexists. split; [reflexivity|]. split; [done|].
  split; [apply (keeps_structure_focus client s)|].
  cbn [columns set_columns set_current_window].
  split; [by rewrite length_fmap|].
  intros j d Hd. exists (focus_column client d).
  split; [by rewrite list_lookup_fmap, Hd|].
  split; [apply focus_column_absent|].
  rewrite focus_column_rows. apply focus_column_active.
Qed.

(** The column [add] appends to: the current one, or the first. *)
Lemma add_eq s client j d :
  current_column s = Some (j, d) ∨
  (current_column s = None ∧ j = 0 ∧ columns s !! 0 = Some d) →
  add client s =
  Ok tt (mkWmii (Some client) (clients s ++ [client])
           (focus_column client
              <$> <[j := set_rows (rows d ++ [client]) d]> (columns s))
           (group_focused s)).
Proof.
  intros Htarget. unfold add. exec.
  assert (current_column (set_clients (clients s ++ [client]) s)
          = current_column s) as -> by done.
  assert (columns s !! j = Some d) as Hj.
  { destruct Htarget as [Hc|(_ & -> & ?)]; [|done].
    unfold current_column in Hc. destruct (current_window s); [|done].
    by apply find_column_Some in Hc as (? & _). }
  destruct Htarget as [->|(-> & -> & ->)]; exec;
    by rewrite (alter_lookup _ _ _ _ Hj).
Qed.

(** X10.  On a layout with a column to add to (the one of the focused
    window, else the first), [add] returns: the client is appended to the
    registry and to the rows of that column, it becomes the focused window,
    the column's ['active'] entry points at a row holding it, and the rows
    of the other columns, all widths and all modes are as before. *)
Theorem add_spec s client j d :
  current_column s = Some (j, d) ∨
  (current_column s = None ∧ j = 0 ∧ columns s !! 0 = Some d) →
  ∃ s' d',
    add client s = Ok tt s' ∧
    clients s' = clients s ++ [client] ∧
    current_window s' = Some client ∧
    columns s' !! j = Some d' ∧
    rows d' = rows d ++ [client] ∧
    (∃ i, active d' = Some i ∧ rows d' !! i = Some client) ∧
    rows <$> columns s' = <[j := rows d ++ [client]]> (rows <$> columns s) ∧
    width <$> columns s' = width <$> columns s ∧
    mode <$> columns s' = mode <$> columns s.
Proof.
  intros Htarget. rewrite (add_eq _ _ _ _ Htarget).
  assert (columns s !! j = Some d) as Hj.
  { destruct Htarget as [Hc|(_ & -> & ?)]; [|done].
    unfold current_column in Hc. destruct (current_window s); [|done].
    by apply find_column_Some in Hc as (? & _). }
  pose proof (lookup_lt_Some _ _ _ Hj) as Hlt.
  set (d1 := set_rows (rows d ++ [client]) d).
  exists (mkWmii (Some client) (clients s ++ [client])
            (focus_column client <$> <[j := d1]> (columns s))
            (group_focused s)), (focus_column client d1).
  cbn [clients current_window columns].
  split_and!; try done.
  - by rewrite list_lookup_fmap, list_lookup_insert_eq.
  - by rewrite focus_column_rows.
  - destruct (focus_column_active client d1) as (i & Hi & Hrow & _).
    { cbn [rows d1 set_rows]. apply elem_of_app. right. apply list_elem_of_here. }
    exists i. by rewrite focus_column_rows.
  - by rewrite focus_columns_rows, list_fmap_insert.
  - rewrite focus_columns_width. by apply (fmap_insert_same _ d).
  - rewrite focus_columns_mode. by apply (fmap_insert_same _ d).
Qed.

Lemma add_spec_witness :
  ∃ s' d',
    add 3 two_clients = Ok tt s' ∧
    clients s' = clients two_clients ++ [3] ∧
    current_window s' = Some 3 ∧
    columns s' !! 0 = Some d' ∧
    rows d' = rows (mkColumn (Some 1) 100%Z split [1; 2]) ++ [3] ∧
    (∃ i, active d' = Some i ∧ rows d' !! i = Some 3) ∧
    rows <$> columns s' =
      <[0 := rows (mkColumn (Some 1) 100%Z split [1; 2]) ++ [3]]>
        (rows <$> columns two_clients) ∧
    width <$> columns s' = width <$> columns two_clients ∧
    mode <$> columns s' = mode <$> columns two_clients.
Proof.
  apply (add_spec two_clients 3 0 (mkColumn (Some 1) 100%Z split [1; 2])).
  left. vm_compute. reflexivity.
Defined.

(** ** A layout without columns *)

Lemma keeps_no_column_simple :
  (∀ client, keeps stays_empty (add client)) ∧
  (∀ client, keeps stays_empty (focus client)) ∧
  keeps stays_empty cmd_toggle_split ∧
  keeps stays_empty cmd_left ∧ keeps stays_empty cmd_right ∧
  keeps stays_empty cmd_up ∧ keeps stays_empty cmd_down ∧
  keeps stays_empty cmd_shuffle_up ∧ keeps stays_empty cmd_shuffle_down.
Proof.
  set (R := stays_empty).
  assert (∀ client, keeps R (focus client)) as Hfocus.
  { intros client s Hs. unfold focus, modify. cbn [state_of columns set_columns].
    by rewrite Hs. }
  assert (∀ client, keeps R (group_focus client)) as Hgroup.
  { intros client s Hs. unfold group_focus, focus, modify, bind.
    cbn [state_of columns set_columns set_group_focused set_current_window].
    by rewrite Hs. }
  assert (∀ i f, keeps R (alter_column i f)) as Halter.
  { intros i f s Hs. unfold alter_column, modify.
    cbn [state_of columns set_columns]. by rewrite Hs. }
  split_and!; [intros client; unfold add|done|unfold cmd_toggle_split
    |unfold cmd_left|unfold cmd_right|unfold cmd_up|unfold cmd_down
    |unfold cmd_shuffle_up|unfold cmd_shuffle_down];
    repeat first [ apply Hfocus | apply Hgroup | apply Halter
                 | apply keeps_modify; intros ? H; exact H
                 | keeps_step ].
Qed.

Lemma state_of_bind_ret {A} (m : M A) s :
  state_of (bind m (λ _, ret tt) s) = state_of (m s).
Proof. unfold bind. by destruct (m s). Qed.

Lemma run_op_stays_empty o s :
  columns s = [] → columns (state_of (run_op o s)) = [].
Proof.
  intros Hs.
  destruct keeps_no_column_simple
    as (Hadd & Hfocus & Htoggle & Hleft & Hright & Hup & Hdown
          & Hsup & Hsdown).
  assert (∀ cur i c, find_column cur (columns s) ≠ Some (i, c)) as Hnone.
  { intros cur i c (Hi & _)%find_column_Some. by rewrite Hs in Hi. }
  destruct o as [client|client|client| | | | | | | | | ]; cbn [run_op];
    try (by (apply Hadd || apply Hfocus || apply Htoggle || apply Hleft
             || apply Hright || apply Hup || apply Hdown || apply Hsup
             || apply Hsdown)).
  - rewrite state_of_bind_ret. apply remove_elim.
    intros o []; cbn [state_of columns set_clients]; try done;
      try (by exfalso; eapply Hnone); congruence.
  - apply shuffle_left_elim.
    intros o []; try done; by exfalso; eapply Hnone.
  - apply shuffle_right_elim.
    intros o []; try done; by exfalso; eapply Hnone.
Qed.

(** X11.  A layout without columns never gets one again: whatever the host
    calls, the column list stays empty; and [add] then raises [IndexError]
    although it has already entered the client into the registry. *)
Theorem no_column_is_final s :
  columns s = [] →
  (∀ o, columns (state_of (run_op o s)) = []) ∧
  (∀ client,
     add client s = Raise IndexError (set_clients (clients s ++ [client]) s)).
Proof.
  intros Hs. split.
  - intros o. by apply run_op_stays_empty.
  - intros client. unfold add. exec.
    assert (current_column (set_clients (clients s ++ [client]) s) = None)
      as ->.
    { unfold current_column, find_column.
      cbn [current_window columns set_clients]. rewrite Hs.
      by destruct (current_window s). }
    exec. by rewrite Hs.
Qed.

Lemma no_column_is_final_witness :
  let s := state_of (run [Add 1; Remove 1] init) in
  (∀ o, columns (state_of (run_op o s)) = []) ∧
  (∀ client,
     add client s = Raise IndexError (set_clients (clients s ++ [client]) s)).
Proof.
  apply (no_column_is_final (state_of (run [Add 1; Remove 1] init))).
  vm_compute. reflexivity.
Defined.

(** ** More on [remove] *)

Lemma remove_unregistered_eq s client :
  client ∉ clients s → remove client s = Ok None s.
Proof.
  intros Hn. unfold remove. exec.
  replace (Py.contains client (clients s)) with false; [done|].
  symmetry. by apply bool_decide_eq_false.
Qed.

Lemma remove_emptied_column_insert cols i c :
  cols !! i = Some c →
  no_empty_column cols →
  Py.remove (set_rows [] c) (<[i := set_rows [] c]> cols) = Some (delete i cols).
Proof.
  intros Hi Hne. rewrite <- (alter_lookup (set_rows []) _ _ _ Hi).
  by apply remove_emptied_column_alter.
Qed.

(** X12.  In a layout where, with two columns or more, no column is empty
    (every reachable layout is one), [remove] raises in one case only: the
    client is registered, holds the focus and is the only row of the only
    column.  The exception is then [ZeroDivisionError] and the layout is
    left without a column. *)
Theorem remove_raises_iff s client :
  columns_ok (columns s) →
  let sole :=
    client ∈ clients s ∧ current_window s = Some client ∧
    ∃ c, columns s = [c] ∧ rows c = [client] in
  (∀ e s', remove client s = Raise e s' →
     e = ZeroDivisionError ∧ columns s' = [] ∧ sole) ∧
  (sole → ∃ s', remove client s = Raise ZeroDivisionError s').
Proof.
  intros Hok sole. subst sole. cbn beta. split.
  - apply (remove_elim
             (λ o, ∀ e s', o = Raise e s' → e = ZeroDivisionError ∧ _ ∧ _)).
    intros o [| | | |l c Hl Hfocus Hcols Hrows
              | |l i c cols d Hl Hfocus Hfind Hrows Hcols Hlen Hd Hempty| ]
           e s' [= <- <-]; cbn [columns].
    + split_and!; try done; [by eapply remove_Some_elem_of | by exists c].
    + exfalso.
      pose proof (remove_length _ _ _ Hcols) as Hclen.
      rewrite length_insert in Hclen.
      apply find_column_Some in Hfind as (Hi & _).
      assert (no_empty_column (columns s)) as Hne by (apply Hok; lia).
      rewrite (remove_emptied_column_insert _ _ _ Hi Hne) in Hcols.
      injection Hcols as <-.
      rewrite list_lookup_delete in Hd.
      unfold no_empty_column in Hne. rewrite Forall_lookup in Hne.
      case_decide; by eapply Hne.
  - intros (Hreg & Hfocus & c & Hcols & Hrows).
    destruct (remove_sole_client_raises s client c Hreg Hfocus Hcols Hrows)
      as (l & _ & ->).
    by eexists.
Qed.

Lemma remove_raises_iff_witness :
  let sole :=
    1 ∈ clients one_client ∧ current_window one_client = Some 1 ∧
    ∃ c, columns one_client = [c] ∧ rows c = [1] in
  (∀ e s', remove 1 one_client = Raise e s' →
     e = ZeroDivisionError ∧ columns s' = [] ∧ sole) ∧
  (sole → ∃ s', remove 1 one_client = Raise ZeroDivisionError s').
Proof.
  apply (remove_raises_iff one_client 1).
  vm_compute. intros Hlen. lia.
Defined.

(** X13.  Once a client that is registered once has been removed, whether
    that call returned or raised, a second [remove] of it returns nothing
    and changes nothing. *)
Theorem remove_twice s client l :
  Py.remove client (clients s) = Some l →
  client ∉ l →
  let s1 := state_of (remove client s) in
  clients s1 = l ∧ remove client s1 = Ok None s1.
Proof.
  intros Hl Hn s1.
  assert (clients s1 = l) as Hs1.
  { unfold s1. apply remove_elim.
    intros o []; cbn [state_of clients set_clients]; try congruence.
    exfalso. by eapply remove_Some_elem_of in Hl. }
  split; [done|]. apply remove_unregistered_eq. by rewrite Hs1.
Qed.

Lemma remove_twice_witness :
  let s1 := state_of (remove 1 one_client) in
  clients s1 = [] ∧ remove 1 s1 = Ok None s1.
Proof.
  apply (remove_twice one_client 1 []).
  - vm_compute. reflexivity.
  - apply not_elem_of_nil.
Defined.

Lemma last_lookup_pred {A} (l : list A) : l !! (length l - 1) = last l.
Proof. rewrite last_lookup. f_equal. lia. Qed.

Lemma fmap_focus_insert {B} (g : Column → B) x (j : nat) c'
    (cols : list Column) :
  (∀ y c, g (focus_column y c) = g c) →
  g <$> (focus_column x <$> <[j := c']> cols) = <[j := g c']> (g <$> cols).
Proof.
  intros Hg. rewrite <- list_fmap_compose.
  rewrite (list_fmap_ext (g ∘ focus_column x) g (<[j := c']> cols))
    by (intros; apply Hg).
  apply list_fmap_insert.
Qed.

(** X14.  Adding a new client (neither registered nor in a column) to a
    column that has rows, and removing it at once, gives back the registry
    and every column's rows, width and mode; the focus ends on the last row
    of that column, which is also what [remove] returns. *)
Theorem add_remove_round_trip s client j d w :
  current_column s = Some (j, d) ∨
  (current_column s = None ∧ j = 0 ∧ columns s !! 0 = Some d) →
  client ∉ clients s →
  Forall (λ c, client ∉ rows c) (columns s) →
  last (rows d) = Some w →
  ∃ s1 s2,
    add client s = Ok tt s1 ∧
    remove client s1 = Ok (Some w) s2 ∧
    clients s2 = clients s ∧
    same_structure s s2 ∧
    current_window s2 = Some w.
Proof.
  intros Htarget Hnew Habsent Hlast.
  assert (columns s !! j = Some d) as Hj.
  { destruct Htarget as [Hc|(_ & -> & ?)]; [|done].
    unfold current_column in Hc. destruct (current_window s); [|done].
    by apply find_column_Some in Hc as (? & _). }
  pose proof (lookup_lt_Some _ _ _ Hj) as Hlt.
  rewrite Forall_lookup in Habsent.
  pose proof (Habsent _ _ Hj) as Hd.
  eexists. rewrite (add_eq _ _ _ _ Htarget).
  set (d1 := set_rows (rows d ++ [client]) d).
  set (s1 := mkWmii _ _ _ _).
  assert (∃ s2, remove client s1 = Ok (Some w) s2 ∧ clients s2 = clients s ∧
                same_structure s s2 ∧ current_window s2 = Some w)
    as (s2 & ? & ? & ? & ?); [|by exists s2].
  assert (∀ i c, find_column client (columns s1) = Some (i, c) →
                 i = j ∧ c = focus_column client d1) as Hwhere.
  { intros i c (Hi & Hin & _)%find_column_Some.
    cbn [s1 columns] in Hi. rewrite list_lookup_fmap in Hi.
    destruct (decide (i = j)) as [->|Hij].
    - rewrite list_lookup_insert_eq in Hi by done. by simplify_eq/=.
    - rewrite list_lookup_insert_ne in Hi by done.
      destruct (columns s !! i) as [c0|] eqn:Hc0; simplify_eq/=.
      rewrite focus_column_rows in Hin. by apply Habsent in Hc0. }
  assert (Py.remove client (clients s1) = Some (clients s)) as Hregistry.
  { cbn [s1 clients]. by apply remove_not_elem_of. }
  assert (rows d ≠ []) as Hrows by (by intros Hnil; rewrite Hnil in Hlast).
  apply remove_elim.
  intros o [Hreg|l Hl Hfocus|l Hl Hfocus Hfind
            |l i c ridx r nc Hl Hfocus Hfind Hridx Hr Hnc
            |l c Hl Hfocus Hcols Hc
            |l i c cols Hl Hfocus Hfind Hc Hcols Hone
            |l i c cols d' Hl Hfocus Hfind Hc Hcols Hlen Hd' Hempty
            |l i c cols d' nc Hl Hfocus Hfind Hc Hcols Hlen Hd' Hnc].
  - exfalso. apply Hreg. cbn [s1 clients]. apply elem_of_app. right.
    apply list_elem_of_here.
  - done.
  - exfalso. apply find_column_None in Hfind.
    rewrite Forall_lookup in Hfind.
    apply (Hfind j (focus_column client d1)).
    + cbn [s1 columns]. by rewrite list_lookup_fmap, list_lookup_insert_eq.
    + rewrite focus_column_rows. cbn [d1 rows set_rows].
      apply elem_of_app. right. apply list_elem_of_here.
  - destruct (Hwhere _ _ Hfind) as [-> ->].
    rewrite focus_column_rows in Hridx, Hr. cbn [d1 rows set_rows] in Hridx, Hr.
    rewrite index_not_elem_of in Hridx by done.
    rewrite remove_not_elem_of in Hr by done. simplify_eq.
    rewrite last_lookup_pred, Hlast in Hnc. simplify_eq.
    eexists. split; [reflexivity|]. cbn [clients current_window columns s1].
    split; [done|]. split; [|done].
    assert (∀ {B} (g : Column → B),
              (∀ x c, g (focus_column x c) = g c) →
              g (set_rows (rows d) (focus_column client d1)) = g d →
              g <$> (focus_column nc <$>
                       <[j := set_rows (rows d) (focus_column client d1)]>
                         (focus_column client <$> <[j := d1]> (columns s)))
              = g <$> columns s) as Hsame.
    { intros B g Hg Hgd.
      rewrite !fmap_focus_insert, Hgd, list_insert_insert_eq by done.
      apply list_insert_id. by rewrite list_lookup_fmap, Hj. }
    unfold same_structure. cbn [columns clients].
    split_and!; [apply Hsame|apply Hsame|apply Hsame|done];
      auto using focus_column_rows, focus_column_width, focus_column_mode.
    + cbn [width set_rows]. by rewrite focus_column_width.
    + cbn [mode set_rows]. by rewrite focus_column_mode.
  - exfalso. cbn [s1 columns] in Hcols.
    assert (find_column client (columns s1) = Some (0, c)) as Hfind.
    { apply find_column_Some. cbn [s1 columns]. rewrite Hcols.
      split; [done|]. split; [rewrite Hc; apply list_elem_of_here|].
      intros; lia. }
    destruct (Hwhere _ _ Hfind) as [_ ->].
    rewrite focus_column_rows in Hc. cbn [d1 rows set_rows] in Hc.
    by destruct (rows d) as [|? [|??]].
  - exfalso. destruct (Hwhere _ _ Hfind) as [_ ->].
    rewrite focus_column_rows in Hc. cbn [d1 rows set_rows] in Hc.
    by destruct (rows d) as [|? [|??]].
  - exfalso. destruct (Hwhere _ _ Hfind) as [_ ->].
    rewrite focus_column_rows in Hc. cbn [d1 rows set_rows] in Hc.
    by destruct (rows d) as [|? [|??]].
  - exfalso. destruct (Hwhere _ _ Hfind) as [_ ->].
    rewrite focus_column_rows in Hc. cbn [d1 rows set_rows] in Hc.
    by destruct (rows d) as [|? [|??]].
Qed.

Lemma add_remove_round_trip_witness :
  ∃ s1 s2,
    add 3 two_clients = Ok tt s1 ∧
    remove 3 s1 = Ok (Some 2) s2 ∧
    clients s2 = clients two_clients ∧
    same_structure two_clients s2 ∧
    current_window s2 = Some 2.
Proof.
  apply (add_remove_round_trip two_clients 3 0
           (mkColumn (Some 1) 100%Z split [1; 2]) 2).
  - left. vm_compute. reflexivity.
  - vm_compute. intros H. repeat (apply elem_of_cons in H as [H|H]; [discriminate|]).
    by apply elem_of_nil in H.
  - vm_compute. repeat constructor.
    intros H. repeat (apply elem_of_cons in H as [H|H]; [discriminate|]).
    by apply elem_of_nil in H.
  - reflexivity.
Defined.

(** ** Vertical moves *)

(** X15.  With the focus on the client at row [ridx] of its column,
    [cmd_down] does nothing at the bottom row of a split column, hands the
    client of the next row to the focus delegate when there is one, and at
    the bottom row of a stacked column raises [IndexError] without changing
    the layout. *)
Theorem cmd_down_spec s w i c ridx :
  current_window s = Some w →
  find_column w (columns s) = Some (i, c) →
  Py.index w (rows c) = Some ridx →
  (mode c = split → S ridx = length (rows c) → cmd_down s = Ok tt s) ∧
  (S ridx < length (rows c) → ∃ client,
      rows c !! S ridx = Some client ∧
      cmd_down s = group_focus client s ∧
      current_window (state_of (cmd_down s)) = Some client) ∧
  (mode c = stack → S ridx = length (rows c) →
   cmd_down s = Raise IndexError s).
Proof.
  intros Hw Hfind Hridx.
  split_and!; [| |intros Hmode Hbottom; by eapply cmd_down_bottom_stack].
  - intros Hmode Hbottom. unfold cmd_down. exec.
    rewrite (current_column_Some _ _ _ _ Hw Hfind).
    rewrite (focused_row_Some _ _ _ _ Hw Hridx). exec.
    rewrite Hmode, !bool_decide_true by (done || lia). done.
  - intros Hnext.
    destruct (lookup_lt_is_Some_2 (rows c) (S ridx)) as [client Hclient];
      [done|].
    exists client. split; [done|].
    assert (cmd_down s = group_focus client s) as ->; [|done].
    unfold cmd_down. exec.
    rewrite (current_column_Some _ _ _ _ Hw Hfind).
    rewrite (focused_row_Some _ _ _ _ Hw Hridx). exec.
    rewrite (bool_decide_false (Z.of_nat ridx = _)) by lia.
    rewrite andb_false_r.
    replace (Z.of_nat ridx + 1)%Z with (Z.of_nat (S ridx)) by lia.
    by rewrite getitem_nat, Hclient.
Qed.

Lemma cmd_down_spec_witness :
  let s := state_of (run [Add 1; Add 2; Focus 1] init) in
  let c := mkColumn (Some 0) 100%Z split [1; 2] in
  (mode c = split → 1 = length (rows c) → cmd_down s = Ok tt s) ∧
  (1 < length (rows c) → ∃ client,
      rows c !! 1 = Some client ∧
      cmd_down s = group_focus client s ∧
      current_window (state_of (cmd_down s)) = Some client) ∧
  (mode c = stack → 1 = length (rows c) →
   cmd_down s = Raise IndexError s).
Proof.
  apply (cmd_down_spec (state_of (run [Add 1; Add 2; Focus 1] init)) 1 0
           (mkColumn (Some 0) 100%Z split [1; 2]) 0);
    vm_compute; reflexivity.
Defined.

(** ** Reordering within a column, continued *)

Lemma cmd_shuffle_up_eq s w i c ridx above :
  current_window s = Some w →
  find_column w (columns s) = Some (i, c) →
  Py.index w (rows c) = Some (S ridx) →
  rows c !! ridx = Some above →
  cmd_shuffle_up s =
  Ok tt (mkWmii (Some w) (clients s)
           (focus_column w <$>
              (focus_column w <$>
                 <[i := set_rows (<[ridx := w]> (<[S ridx := above]> (rows c))) c]>
                   (columns s)))
           (group_focused s ++ [w])).
Proof.
  intros Hw Hfind Hridx Habove.
  apply index_Some in Hridx as Hrow. destruct Hrow as [Hrow _].
  pose proof (lookup_lt_Some _ _ _ Hrow) as Hlt.
  unfold cmd_shuffle_up. exec.
  rewrite (current_column_Some _ _ _ _ Hw Hfind).
  rewrite (focused_row_Some _ _ _ _ Hw Hridx). exec.
  rewrite bool_decide_true by lia.
  replace (Z.of_nat (S ridx) - 1)%Z with (Z.of_nat ridx) by lia.
  rewrite (swap_nat _ _ _ _ _ Habove Hrow). exec.
  rewrite getitem_nat, list_lookup_insert_eq by (rewrite length_insert; lia).
  exec. apply find_column_Some in Hfind as (Hi & _).
  by rewrite (alter_lookup _ _ _ _ Hi).
Qed.

Lemma cmd_shuffle_down_eq s w i c ridx below :
  current_window s = Some w →
  find_column w (columns s) = Some (i, c) →
  Py.index w (rows c) = Some ridx →
  rows c !! S ridx = Some below →
  cmd_shuffle_down s =
  Ok tt (mkWmii (Some w) (clients s)
           (focus_column w <$>
              (focus_column w <$>
                 <[i := set_rows (<[ridx := below]> (<[S ridx := w]> (rows c))) c]>
                   (columns s)))
           (group_focused s ++ [w])).
Proof.
  intros Hw Hfind Hridx Hbelow.
  apply index_Some in Hridx as Hrow. destruct Hrow as [Hrow _].
  pose proof (lookup_lt_Some _ _ _ Hbelow) as Hlt.
  unfold cmd_shuffle_down. exec.
  rewrite (current_column_Some _ _ _ _ Hw Hfind).
  rewrite (focused_row_Some _ _ _ _ Hw Hridx). exec.
  rewrite bool_decide_true by lia.
  replace (Z.of_nat ridx + 1)%Z with (Z.of_nat (S ridx)) by lia.
  rewrite (swap_nat _ _ _ _ _ Hrow Hbelow). exec.
  rewrite getitem_nat, list_lookup_insert_ne by lia.
  rewrite list_lookup_insert_eq by lia.
  exec. apply find_column_Some in Hfind as (Hi & _).
  by rewrite (alter_lookup _ _ _ _ Hi).
Qed.

(** What a vertical shuffle leaves, given the rows [r] it writes. *)
Lemma shuffled_structure s w i c r gf :
  columns s !! i = Some c →
  let s' := mkWmii (Some w) (clients s)
              (focus_column w <$> (focus_column w <$> <[i := set_rows r c]> (columns s)))
              gf in
  rows <$> columns s' = <[i := r]> (rows <$> columns s) ∧
  width <$> columns s' = width <$> columns s ∧
  mode <$> columns s' = mode <$> columns s ∧
  clients s' = clients s ∧
  current_window s' = Some w.
Proof.
  intros Hi s'. cbn [s' columns clients current_window].
  rewrite focus_columns_rows, focus_columns_width, focus_columns_mode.
  rewrite !fmap_focus_insert
    by auto using focus_column_rows, focus_column_width, focus_column_mode.
  split_and!; try done; apply list_insert_id; by rewrite list_lookup_fmap, Hi.
Qed.

(** X16.  With the focus on the client at row [ridx] of its column,
    [cmd_shuffle_up] never raises: at the top row it does nothing, and
    otherwise it exchanges the client with the row above, keeps the focus
    on it and leaves every other row, and all widths, modes and the
    registry, as they are. *)
Theorem cmd_shuffle_up_spec s w i c ridx :
  current_window s = Some w →
  find_column w (columns s) = Some (i, c) →
  Py.index w (rows c) = Some ridx →
  (ridx = 0 → cmd_shuffle_up s = Ok tt s) ∧
  (0 < ridx → ∃ above s',
      rows c !! (ridx - 1) = Some above ∧
      cmd_shuffle_up s = Ok tt s' ∧
      rows <$> columns s' =
        <[i := <[ridx - 1 := w]> (<[ridx := above]> (rows c))]>
          (rows <$> columns s) ∧
      width <$> columns s' = width <$> columns s ∧
      mode <$> columns s' = mode <$> columns s ∧
      clients s' = clients s ∧
      current_window s' = Some w).
Proof.
  intros Hw Hfind Hridx. split.
  - intros ->. unfold cmd_shuffle_up. exec.
    rewrite (current_column_Some _ _ _ _ Hw Hfind).
    by rewrite (focused_row_Some _ _ _ _ Hw Hridx).
  - intros Hpos. destruct ridx as [|ridx]; [lia|].
    replace (S ridx - 1) with ridx by lia.
    pose proof (index_lt _ _ _ Hridx) as Hlt.
    destruct (lookup_lt_is_Some_2 (rows c) ridx) as [above Habove]; [lia|].
    exists above. eexists. split; [done|].
    split; [by eapply cmd_shuffle_up_eq|].
    apply find_column_Some in Hfind as (Hi & _).
    by apply shuffled_structure.
Qed.

Lemma cmd_shuffle_up_spec_witness :
  (2 = 0 → cmd_shuffle_up three_clients = Ok tt three_clients) ∧
  (0 < 2 → ∃ above s',
      rows (mkColumn (Some 2) 100%Z split [1; 2; 3]) !! (2 - 1) = Some above ∧
      cmd_shuffle_up three_clients = Ok tt s' ∧
      rows <$> columns s' =
        <[0 := <[2 - 1 := 3]>
                 (<[2 := above]> (rows (mkColumn (Some 2) 100%Z split [1; 2; 3])))]>
          (rows <$> columns three_clients) ∧
      width <$> columns s' = width <$> columns three_clients ∧
      mode <$> columns s' = mode <$> columns three_clients ∧
      clients s' = clients three_clients ∧
      current_window s' = Some 3).
Proof.
  apply (cmd_shuffle_up_spec three_clients 3 0
           (mkColumn (Some 2) 100%Z split [1; 2; 3]) 2);
    vm_compute; reflexivity.
Defined.

Lemma find_column_insert_elem client cols i c c' :
  find_column client cols = Some (i, c) →
  client ∈ rows c' →
  find_column client (<[i := c']> cols) = Some (i, c').
Proof.
  intros (Hi & Hin & Hleast)%find_column_Some Hin'.
  apply find_column_Some. split_and!; [|done|].
  - apply list_lookup_insert_eq. by eapply lookup_lt_Some.
  - intros j d Hd Hj. rewrite list_lookup_insert_ne in Hd by lia.
    by eapply Hleast.
Qed.

Lemma find_column_fmap client (f : Column → Column) cols i c :
  (∀ d, rows (f d) = rows d) →
  find_column client cols = Some (i, c) →
  find_column client (f <$> cols) = Some (i, f c).
Proof.
  intros Hf (Hi & Hin & Hleast)%find_column_Some.
  apply find_column_Some. split_and!.
  - by rewrite list_lookup_fmap, Hi.
  - by rewrite Hf.
  - intros j d Hd Hj. rewrite list_lookup_fmap in Hd.
    destruct (cols !! j) as [d0|] eqn:Hd0; simplify_eq/=.
    rewrite Hf. by eapply Hleast.
Qed.

(** X17.  When the focused client is not on the last row and the client
    below it is another one, [cmd_shuffle_down] followed by
    [cmd_shuffle_up] returns twice and gives back every column's rows,
    widths and modes, with the focus still on the client. *)
Theorem shuffle_down_up_round_trip s w i c ridx below :
  current_window s = Some w →
  find_column w (columns s) = Some (i, c) →
  Py.index w (rows c) = Some ridx →
  rows c !! S ridx = Some below →
  below ≠ w →
  ∃ s1 s2,
    cmd_shuffle_down s = Ok tt s1 ∧
    rows <$> columns s1 =
      <[i := <[ridx := below]> (<[S ridx := w]> (rows c))]>
        (rows <$> columns s) ∧
    cmd_shuffle_up s1 = Ok tt s2 ∧
    same_structure s s2 ∧
    current_window s2 = Some w.
Proof.
  intros Hw Hfind Hridx Hbelow Hne.
  apply find_column_Some in Hfind as Hfind'. destruct Hfind' as (Hi & _).
  apply index_Some in Hridx as Hrow. destruct Hrow as [Hrow Hfirst].
  pose proof (lookup_lt_Some _ _ _ Hbelow) as Hlt.
  set (r := <[ridx := below]> (<[S ridx := w]> (rows c))).
  set (c1 := focus_column w (focus_column w (set_rows r c))).
  eexists. eexists.
  split; [by eapply cmd_shuffle_down_eq|].
  split; [by apply shuffled_structure|].
  fold r.
  assert (rows c1 = r) as Hc1 by (unfold c1; by rewrite !focus_column_rows).
  assert (r !! S ridx = Some w) as Hrw.
  { unfold r. rewrite list_lookup_insert_ne by lia.
    by rewrite list_lookup_insert_eq by lia. }
  assert (r !! ridx = Some below) as Hrb.
  { unfold r. by rewrite list_lookup_insert_eq by (rewrite length_insert; lia). }
  set (s1 := mkWmii _ _ _ _).
  assert (find_column w (columns s1) = Some (i, c1)) as Hfind1.
  { cbn [s1 columns]. unfold c1.
    do 2 (apply find_column_fmap; [apply focus_column_rows|]).
    apply (find_column_insert_elem _ _ _ c); [done|].
    cbn [rows set_rows]. by eapply list_elem_of_lookup_2. }
  assert (Py.index w (rows c1) = Some (S ridx)) as Hridx1.
  { rewrite Hc1. apply index_Some. split; [done|].
    intros k Hk. destruct (decide (k = ridx)) as [->|Hkr].
    - rewrite Hrb. congruence.
    - unfold r. rewrite !list_lookup_insert_ne by lia. apply Hfirst. lia. }
  assert (rows c1 !! ridx = Some below) as Hbelow1 by (by rewrite Hc1).
  split; [by eapply (cmd_shuffle_up_eq s1 w i c1 ridx below)|].
  assert (<[ridx := w]> (<[S ridx := below]> (rows c1)) = rows c) as Hback.
  { rewrite Hc1. unfold r. apply list_eq. intros k.
    destruct (decide (k = ridx)) as [->|Hkr].
    - rewrite list_lookup_insert_eq by (rewrite !length_insert; lia). done.
    - rewrite list_lookup_insert_ne by done.
      destruct (decide (k = S ridx)) as [->|Hks].
      + rewrite list_lookup_insert_eq by (rewrite !length_insert; lia). done.
      + by rewrite !list_lookup_insert_ne by done. }
  rewrite Hback.
  assert (columns s1 !! i = Some c1) as Hi1.
  { by apply find_column_Some in Hfind1 as (? & _). }
  destruct (shuffled_structure s1 w i c1 (rows c) (group_focused s1 ++ [w]) Hi1)
    as (Hr & Hwd & Hm & Hcl & Hcw).
  destruct (shuffled_structure s w i c r (group_focused s ++ [w]) Hi)
    as (Hr1 & Hwd1 & Hm1 & Hcl1 & _).
  fold s1 in Hr1, Hwd1, Hm1, Hcl1.
  unfold same_structure. split_and!.
  - etrans; [exact Hr|]. rewrite Hr1, list_insert_insert_eq.
    apply list_insert_id. by rewrite list_lookup_fmap, Hi.
  - etrans; [exact Hwd | exact Hwd1].
  - etrans; [exact Hm | exact Hm1].
  - etrans; [exact Hcl | exact Hcl1].
  - exact Hcw.
Qed.

Lemma shuffle_down_up_round_trip_witness :
  let s := state_of (run [Add 1; Add 2; Focus 1] init) in
  ∃ s1 s2,
    cmd_shuffle_down s = Ok tt s1 ∧
    rows <$> columns s1 =
      <[0 := <[0 := 2]> (<[1 := 1]> (rows (mkColumn (Some 0) 100%Z split [1; 2])))]>
        (rows <$> columns s) ∧
    cmd_shuffle_up s1 = Ok tt s2 ∧
    same_structure s s2 ∧
    current_window s2 = Some 1.
Proof.
  apply (shuffle_down_up_round_trip
           (state_of (run [Add 1; Add 2; Focus 1] init)) 1 0
           (mkColumn (Some 0) 100%Z split [1; 2]) 0 2);
    try (vm_compute; reflexivity).
  discriminate.
Defined.

(** ** Horizontal navigation *)

Lemma current_column_index_Some s w i c :
  current_window s = Some w →
  find_column w (columns s) = Some (i, c) →
  current_column_index s = Some i.
Proof.
  intros Hw Hfind. unfold current_column_index.
  rewrite (current_column_Some _ _ _ _ Hw Hfind). simpl.
  by eapply find_column_index.
Qed.

(** X18.  With the focused window in column [i], [cmd_left] does nothing in
    the first column and [cmd_right] nothing in the last; otherwise they hand
    the first row of the column before, or after, to the focus delegate, and
    raise [IndexError], changing nothing, if that column has no row. *)
Theorem cmd_left_right_spec s w i c :
  current_window s = Some w →
  find_column w (columns s) = Some (i, c) →
  let towards (cmd : M unit) (d : Column) :=
    match rows d !! 0 with
    | Some client =>
        cmd s = group_focus client s ∧
        current_window (state_of (cmd s)) = Some client
    | None => cmd s = Raise IndexError s
    end in
  (i = 0 → cmd_left s = Ok tt s) ∧
  (∀ d, 0 < i → columns s !! (i - 1) = Some d → towards cmd_left d) ∧
  (S i = length (columns s) → cmd_right s = Ok tt s) ∧
  (∀ d, columns s !! S i = Some d → towards cmd_right d).
Proof.
  intros Hw Hfind towards. subst towards. cbn beta.
  pose proof (current_column_index_Some _ _ _ _ Hw Hfind) as Hidx.
  pose proof (find_column_lt _ _ _ _ Hfind) as Hlt.
  split_and!.
  - intros ->. unfold cmd_left. exec. by rewrite Hidx.
  - intros d Hpos Hd. unfold cmd_left. exec. rewrite Hidx. exec.
    rewrite bool_decide_false by lia. exec. rewrite Hd. exec.
    by destruct (rows d !! 0).
  - intros Hlast. unfold cmd_right. exec. rewrite Hidx. exec.
    by rewrite bool_decide_true by lia.
  - intros d Hd. pose proof (lookup_lt_Some _ _ _ Hd) as Hdlt.
    unfold cmd_right. exec. rewrite Hidx. exec.
    rewrite bool_decide_false by lia. exec.
    replace (i + 1) with (S i) by lia. rewrite Hd. exec.
    by destruct (rows d !! 0).
Qed.

Lemma cmd_left_right_spec_witness :
  let s := three_columns in
  let towards (cmd : M unit) (d : Column) :=
    match rows d !! 0 with
    | Some client =>
        cmd s = group_focus client s ∧
        current_window (state_of (cmd s)) = Some client
    | None => cmd s = Raise IndexError s
    end in
  (2 = 0 → cmd_left s = Ok tt s) ∧
  (∀ d, 0 < 2 → columns s !! (2 - 1) = Some d → towards cmd_left d) ∧
  (3 = length (columns s) → cmd_right s = Ok tt s) ∧
  (∀ d, columns s !! 3 = Some d → towards cmd_right d).
Proof.
  apply (cmd_left_right_spec three_columns 3 2
           (mkColumn (Some 0) 33%Z split [3]));
    vm_compute; reflexivity.
Defined.

(** ** The registry and the columns *)

Lemma keeps_clients_focus client : keeps same_clients (focus client).
Proof.
  intros s. unfold focus, modify, same_clients.
  cbn [state_of columns clients set_columns set_current_window].
  by rewrite shown_fmap by apply focus_column_rows.
Qed.

Lemma keeps_clients_group_focus client :
  keeps same_clients (group_focus client).
Proof.
  unfold group_focus. apply keeps_bind; [tc_solve| |intros ?].
  - by apply keeps_modify.
  - apply keeps_clients_focus.
Qed.

Lemma shown_alter f i cols :
  (∀ c, rows (f c) = rows c) → shown (alter f i cols) = shown cols.
Proof.
  intros Hf. unfold shown. f_equal. apply list_eq. intros j.
  rewrite !list_lookup_fmap. destruct (decide (i = j)) as [->|Hne].
  - rewrite list_lookup_alter_eq. destruct (cols !! j); [|done].
    simpl. by rewrite Hf.
  - by rewrite list_lookup_alter_ne.
Qed.

Lemma keeps_clients_set_mode i m :
  keeps same_clients (alter_column i (set_mode m)).
Proof.
  apply keeps_alter_column. intros s. unfold same_clients.
  cbn [columns clients set_columns]. by rewrite shown_alter.
Qed.

Ltac keeps_clients :=
  repeat first
    [ apply keeps_clients_focus | apply keeps_clients_group_focus
    | apply keeps_clients_set_mode | keeps_step ].

Lemma keeps_clients_simple :
  keeps same_clients cmd_toggle_split ∧
  keeps same_clients cmd_left ∧ keeps same_clients cmd_right ∧
  keeps same_clients cmd_up ∧ keeps same_clients cmd_down.
Proof.
  split_and!; [unfold cmd_toggle_split|unfold cmd_left|unfold cmd_right
    |unfold cmd_up|unfold cmd_down]; keeps_clients.
Qed.

Lemma shown_set_rows cols i c r :
  cols !! i = Some c → r ≡ₚ rows c →
  shown (<[i := set_rows r c]> cols) ≡ₚ shown cols.
Proof.
  intros Hi Hr. rewrite (shown_insert _ _ _ _ Hi), (shown_lookup _ _ _ Hi).
  cbn [rows set_rows]. by rewrite Hr.
Qed.

Lemma shuffled_clients s w i c r gf :
  columns s !! i = Some c → r ≡ₚ rows c →
  same_clients s
    (mkWmii (Some w) (clients s)
       (focus_column w <$> (focus_column w <$> <[i := set_rows r c]> (columns s)))
       gf).
Proof.
  intros Hi Hr. split; [|done]. cbn [columns].
  rewrite !shown_fmap by apply focus_column_rows.
  by apply shown_set_rows.
Qed.

Lemma focused_row_index s c ridx :
  focused_row s c = Some ridx →
  ∃ w, current_window s = Some w ∧ Py.index w (rows c) = Some ridx.
Proof.
  unfold focused_row. destruct (current_window s) as [w|]; [|done].
  intros H. by exists w.
Qed.

Lemma current_column_find s i c :
  current_column s = Some (i, c) →
  ∃ w, current_window s = Some w ∧ find_column w (columns s) = Some (i, c).
Proof.
  unfold current_column. destruct (current_window s) as [w|]; [|done].
  intros H. by exists w.
Qed.

Lemma keeps_clients_shuffle_up : keeps same_clients cmd_shuffle_up.
Proof.
  intros s. destruct (current_column s) as [[i c]|] eqn:Hcur.
  - apply current_column_find in Hcur as (w & Hw & Hfind).
    pose proof Hfind as (Hi & Hin & _)%find_column_Some.
    destruct (Py.index w (rows c)) as [ridx|] eqn:Hridx;
      [|by apply index_None in Hridx].
    destruct ridx as [|ridx].
    + unfold cmd_shuffle_up. exec.
      rewrite (current_column_Some _ _ _ _ Hw Hfind).
      rewrite (focused_row_Some _ _ _ _ Hw Hridx). exec.
      by rewrite bool_decide_false by lia.
    + pose proof Hridx as [Hrow _]%index_Some.
      destruct (rows c !! ridx) as [above|] eqn:Habove.
      2:{ apply lookup_ge_None in Habove.
          apply lookup_lt_Some in Hrow. lia. }
      rewrite (cmd_shuffle_up_eq _ _ _ _ _ _ Hw Hfind Hridx Habove).
      cbn [state_of]. apply shuffled_clients; [done|].
      by apply exchange_Permutation.
  - unfold cmd_shuffle_up. exec. by rewrite Hcur.
Qed.

Lemma keeps_clients_shuffle_down : keeps same_clients cmd_shuffle_down.
Proof.
  intros s. destruct (current_column s) as [[i c]|] eqn:Hcur.
  - apply current_column_find in Hcur as (w & Hw & Hfind).
    pose proof Hfind as (Hi & Hin & _)%find_column_Some.
    destruct (Py.index w (rows c)) as [ridx|] eqn:Hridx;
      [|by apply index_None in Hridx].
    pose proof Hridx as [Hrow _]%index_Some.
    destruct (rows c !! S ridx) as [below|] eqn:Hbelow.
    + rewrite (cmd_shuffle_down_eq _ _ _ _ _ _ Hw Hfind Hridx Hbelow).
      cbn [state_of]. apply shuffled_clients; [done|].
      by apply exchange_Permutation.
    + apply lookup_ge_None in Hbelow. apply lookup_lt_Some in Hrow.
      by rewrite (cmd_shuffle_down_bottom _ _ _ _ _ Hw Hfind Hridx) by lia.
  - unfold cmd_shuffle_down. exec. by rewrite Hcur.
Qed.

Lemma registered_shown_same s s' :
  same_clients s s' →
  clients s ⊆+ shown (columns s) → clients s' ⊆+ shown (columns s').
Proof. intros [Hshown Hclients]. by rewrite Hshown, Hclients. Qed.

Lemma registered_shown_add client s :
  columns s ≠ [] →
  clients s ⊆+ shown (columns s) →
  clients (state_of (add client s)) ⊆+ shown (columns (state_of (add client s))).
Proof.
  intros Hne Hs.
  assert (∃ j d, (current_column s = Some (j, d) ∨
            (current_column s = None ∧ j = 0 ∧ columns s !! 0 = Some d)) ∧
            columns s !! j = Some d) as (j & d & Htarget & Hj).
  { destruct (current_column s) as [[j d]|] eqn:Hcur.
    - exists j, d. split; [by left|].
      apply current_column_find in Hcur as (w & _ & Hfind).
      by apply find_column_Some in Hfind as (? & _).
    - destruct (columns s) as [|d cols] eqn:Hcols; [done|].
      exists 0, d. split; [right|]; done. }
  rewrite (add_eq _ _ _ _ Htarget). cbn [state_of clients columns].
  rewrite shown_fmap by apply focus_column_rows.
  rewrite (shown_insert_append _ _ _ _ Hj).
  rewrite <- Permutation_cons_append. by apply submseteq_skip.
Qed.

Lemma submseteq_remove (client : Client) l l' k k' :
  l ≡ₚ client :: l' → k ≡ₚ client :: k' → l ⊆+ k → l' ⊆+ k'.
Proof.
  intros Hl Hk Hsub. rewrite Hl, Hk in Hsub.
  by apply (submseteq_app_inv_l l' k' [client]).
Qed.

Lemma registered_shown_remove client s :
  clients s ⊆+ shown (columns s) →
  registered_shown (state_of (remove client s)).
Proof.
  intros Hs. apply remove_elim.
  intros o [?|l Hl ?|l Hl ? ?|l i c ridx r nc Hl _ Hfind _ Hr _|l c Hl _ _ _
            |l i c cols Hl _ Hfind Hrows Hcols _
            |l i c cols d Hl _ Hfind Hrows Hcols _ _ _
            |l i c cols d nc Hl _ Hfind Hrows Hcols _ _ _];
    cbn [state_of]; unfold registered_shown;
    cbn [columns clients set_clients]; try (by left); right;
    try done;
    pose proof (remove_Permutation _ _ _ Hl) as Hperm.
  - rewrite <- Hs, Hperm. by apply submseteq_cons.
  - rewrite <- Hs, Hperm. by apply submseteq_cons.
  - apply find_column_Some in Hfind as (Hi & _).
    rewrite shown_fmap by apply focus_column_rows.
    by eapply submseteq_remove, Hs; [|apply (shown_insert_remove _ _ _ _ _ Hi Hr)].
  - apply find_column_Some in Hfind as (Hi & _).
    rewrite shown_fmap by done.
    rewrite (shown_remove_empty _ _ _ Hcols) by done.
    eapply submseteq_remove, Hs; [done|].
    apply (shown_insert_remove _ _ _ _ _ Hi). rewrite Hrows. simpl.
    by rewrite decide_True.
  - apply find_column_Some in Hfind as (Hi & _).
    rewrite shown_fmap by done.
    rewrite (shown_remove_empty _ _ _ Hcols) by done.
    eapply submseteq_remove, Hs; [done|].
    apply (shown_insert_remove _ _ _ _ _ Hi). rewrite Hrows. simpl.
    by rewrite decide_True.
  - apply find_column_Some in Hfind as (Hi & _).
    rewrite !shown_fmap by (done || apply focus_column_rows).
    rewrite (shown_remove_empty _ _ _ Hcols) by done.
    eapply submseteq_remove, Hs; [done|].
    apply (shown_insert_remove _ _ _ _ _ Hi). rewrite Hrows. simpl.
    by rewrite decide_True.
Qed.

Lemma registered_shown_run_op o s :
  registered_shown s → registered_shown (state_of (run_op o s)).
Proof.
  intros [Hs|Hs]; [left; by apply run_op_stays_empty|].
  destruct keeps_clients_simple as (Htoggle & Hleft & Hright & Hup & Hdown).
  assert (∀ m : M unit, keeps same_clients m →
            registered_shown (state_of (m s))) as Hsame.
  { intros m Hm. right. eapply registered_shown_same; [apply Hm | exact Hs]. }
  destruct o as [client|client|client| | | | | | | | | ]; cbn [run_op];
    auto using keeps_clients_focus, keeps_clients_shuffle_up,
      keeps_clients_shuffle_down.
  - destruct (decide (columns s = [])) as [Hnil|Hne].
    + left. by apply (run_op_stays_empty (Add client)).
    + right. by apply registered_shown_add.
  - rewrite state_of_bind_ret. by apply registered_shown_remove.
  - right. eapply registered_shown_same; [|exact Hs].
    destruct (shuffle_left_conserves s) as (? & ? & _). by split.
  - right. eapply registered_shown_same; [|exact Hs].
    destruct (shuffle_right_conserves s) as (? & ? & _). by split.
Qed.

(** X19.  In every layout the host can bring about that still has a column,
    the registered clients are all in the columns, each at least as often
    as it is registered: the registry is a sub-multiset of the rows, and so
    every registered client is in the rows of some column. *)
Theorem reachable_registered_shown s :
  reachable s →
  columns s ≠ [] →
  clients s ⊆+ concat (rows <$> columns s) ∧
  ∀ client, client ∈ clients s → ∃ c, c ∈ columns s ∧ client ∈ rows c.
Proof.
  intros Hreach Hne.
  assert (registered_shown s) as [?|Hs]; [|done|].
  { clear Hne. induction Hreach as [|o s _ IH].
    - right. apply submseteq_nil_l.
    - by apply registered_shown_run_op. }
  split; [exact Hs|]. intros client Hin.
  assert (client ∈ shown (columns s)) as Hshown.
  { apply elem_of_submseteq with (clients s); [done | exact Hs]. }
  unfold shown in Hshown.
  apply list_elem_of_In, in_concat in Hshown as (r & Hcol & Hr).
  apply list_elem_of_In, list_elem_of_fmap in Hcol as (c & -> & Hc).
  exists c. split; [done|]. by apply list_elem_of_In.
Qed.

Lemma reachable_registered_shown_witness :
  clients three_columns ⊆+ concat (rows <$> columns three_columns) ∧
  ∀ client, client ∈ clients three_columns →
    ∃ c, c ∈ columns three_columns ∧ client ∈ rows c.
Proof.
  apply (reachable_registered_shown three_columns).
  - apply reachable_run, reachable_init.
  - vm_compute. discriminate.
Defined.

(** X20.  In every layout the host can bring about, as soon as there are
    two columns or more no column is without rows: a column that loses its
    last client is dropped.  (A single column may be empty, as it is at
    the start.) *)
Theorem reachable_no_empty_column s :
  reachable s →
  2 ≤ length (columns s) →
  Forall (λ c, rows c ≠ []) (columns s).
Proof.
  intros Hreach. change (columns_ok (columns s)).
  induction Hreach as [|o s _ IH].
  - intros Hlen. simpl in Hlen. lia.
  - by apply preserves_run_op.
Qed.

Lemma reachable_no_empty_column_witness :
  Forall (λ c, rows c ≠ []) (columns three_columns).
Proof.
  apply (reachable_no_empty_column three_columns).
  - apply reachable_run, reachable_init.
  - vm_compute. lia.
Defined.
